(** * CypherPoker.JS WebSocket Sessions: handshake, registry, validator, correlator

    A shallow embedding of

    - [WSS_Handshake], [makeConnectionID], [makePrivateID] and
      [handshakeOK] of the server-side WebSocket Session API endpoint;
    - [CypherPokerContract.callContractAPI] of the web client,

    followed by the properties established about them.

    Conventions of the embedding:

    - a JavaScript string is the sequence of its UTF-8 bytes ([string]);
    - the tokens and ids that travel in JSON-RPC messages are JSON
      strings, on which [==] is equality of strings; the arguments of
      [makePrivateID], which tests their kind, are any [jsval];
    - [namespace.websocket.connections] is a property of a global object
      that may still be [undefined]: [option] of a finite map from
      connection identifiers to slots; a slot is [null] or an array of
      connection objects;
    - a JavaScript function that can throw returns a [completion];
    - the sources of non-determinism ([Math.random], [new Date],
      [Date.now], the inbound socket messages) are explicit arguments. *)

From Stdlib Require Import ZArith Ascii String List Lia.
From stdpp Require Import base option list gmap strings fin_maps.

Local Open Scope Z_scope.

(** ** JavaScript values, as far as [typeof] tells them apart *)

Inductive jsval : Type :=
| JUndefined                (* also: an argument that was not passed *)
| JNull
| JBoolean (b : bool)
| JNumber (n : Z)
| JString (s : string)
| JObject.                  (* any object, array or function *)

Definition typeof (v : jsval) : string :=
  match v with
  | JUndefined => "undefined"
  | JNull => "object"
  | JBoolean _ => "boolean"
  | JNumber _ => "number"
  | JString _ => "string"
  | JObject => "object"
  end.

(** Abrupt and normal completion of a call. *)
Inductive completion (A : Type) : Type :=
| Normal (a : A)
| TypeError.
Arguments Normal {A} a.
Arguments TypeError {A}.

(** ** SHA-256 (FIPS 180-4), the primitive behind
    [crypto.createHash('sha256')] *)

Module SHA256.

Definition w32 (x : Z) : Z := x mod 2 ^ 32.

Definition add32 (x y : Z) : Z := w32 (x + y).

Definition ROTR (n x : Z) : Z :=
  Z.lor (Z.shiftr x n) (w32 (Z.shiftl x (32 - n))).

Definition SHR (n x : Z) : Z := Z.shiftr x n.

Definition not32 (x : Z) : Z := Z.lxor x 0xffffffff.

Definition Ch (x y z : Z) : Z :=
  Z.lxor (Z.land x y) (Z.land (not32 x) z).

Definition Maj (x y z : Z) : Z :=
  Z.lxor (Z.lxor (Z.land x y) (Z.land x z)) (Z.land y z).

Definition bsig0 (x : Z) : Z :=
  Z.lxor (Z.lxor (ROTR 2 x) (ROTR 13 x)) (ROTR 22 x).

Definition bsig1 (x : Z) : Z :=
  Z.lxor (Z.lxor (ROTR 6 x) (ROTR 11 x)) (ROTR 25 x).

Definition ssig0 (x : Z) : Z :=
  Z.lxor (Z.lxor (ROTR 7 x) (ROTR 18 x)) (SHR 3 x).

Definition ssig1 (x : Z) : Z :=
  Z.lxor (Z.lxor (ROTR 17 x) (ROTR 19 x)) (SHR 10 x).

(** The first sixty-four primes. *)
Definition primes : list Z :=
  [ 2; 3; 5; 7; 11; 13; 17; 19; 23; 29; 31; 37; 41; 43; 47; 53;
    59; 61; 67; 71; 73; 79; 83; 89; 97; 101; 103; 107; 109; 113;
    127; 131; 137; 139; 149; 151; 157; 163; 167; 173; 179; 181;
    191; 193; 197; 199; 211; 223; 227; 229; 233; 239; 241; 251;
    257; 263; 269; 271; 277; 281; 283; 293; 307; 311 ].

(** Integer cube root below [2 ^ bits], one bit at a time. *)
Fixpoint cube_root (bits : nat) (n r : Z) : Z :=
  match bits with
  | O => r
  | S bits' =>
      let r' := r + 2 ^ Z.of_nat bits' in
      cube_root bits' n (if r' * r' * r' <=? n then r' else r)
  end.

(** Section 4.2.2: the first thirty-two bits of the fractional parts
    of the cube roots of the first sixty-four primes. *)
Definition round_constants : list Z :=
  Eval vm_compute in
    map (fun p => w32 (cube_root 36 (p * 2 ^ 96) 0)) primes.

(** The eight working variables a..h, also the chaining value. *)
Record regs : Type := Regs {
  ra : Z; rb : Z; rc : Z; rd : Z; re : Z; rf : Z; rg : Z; rh : Z
}.

(** Section 5.3.3: the first thirty-two bits of the fractional parts
    of the square roots of the first eight primes. *)
Definition frac_sqrt (p : Z) : Z := w32 (Z.sqrt (p * 2 ^ 64)).

Definition initial_hash : regs :=
  Eval vm_compute in
    Regs (frac_sqrt 2) (frac_sqrt 3) (frac_sqrt 5) (frac_sqrt 7)
         (frac_sqrt 11) (frac_sqrt 13) (frac_sqrt 17) (frac_sqrt 19).

(** Padding: one 0x80 byte, zero bytes up to 56 mod 64, then the bit
    length on eight big-endian bytes. *)
Definition be_bytes (n : nat) (x : Z) : list Z :=
  map (fun i => (Z.shiftr x (8 * Z.of_nat i)) mod 256) (rev (seq 0 n)).

Definition pad (msg : list Z) : list Z :=
  let len := Z.of_nat (length msg) in
  msg ++ 0x80 :: repeat 0 (Z.to_nat ((55 - len) mod 64))
      ++ be_bytes 8 (8 * len).

(** Big-endian 32-bit words of a byte sequence. *)
Fixpoint words (bs : list Z) : list Z :=
  match bs with
  | b0 :: b1 :: b2 :: b3 :: rest =>
      (((b0 * 256 + b1) * 256 + b2) * 256 + b3) :: words rest
  | _ => []
  end.

(** Blocks of sixteen words. *)
Fixpoint blocks (fuel : nat) (ws : list Z) : list (list Z) :=
  match fuel, ws with
  | S fuel', _ :: _ => take 16 ws :: blocks fuel' (drop 16 ws)
  | _, _ => []
  end.

(** Message schedule. [recent] holds W(t-1), W(t-2), ..., most recent
    first; [n] further words are produced. *)
Fixpoint schedule_ext (n : nat) (recent : list Z) : list Z :=
  match n with
  | O => []
  | S n' =>
      let wt := add32 (add32 (add32 (ssig1 (nth 1 recent 0))
                                    (nth 6 recent 0))
                             (ssig0 (nth 14 recent 0)))
                      (nth 15 recent 0) in
      wt :: schedule_ext n' (wt :: recent)
  end.

Definition schedule (block : list Z) : list Z :=
  block ++ schedule_ext 48 (rev block).

Definition round (s : regs) (kw : Z * Z) : regs :=
  let t1 := add32 (add32 (add32 (add32 (rh s) (bsig1 (re s)))
                                (Ch (re s) (rf s) (rg s)))
                         (fst kw))
                  (snd kw) in
  let t2 := add32 (bsig0 (ra s)) (Maj (ra s) (rb s) (rc s)) in
  Regs (add32 t1 t2) (ra s) (rb s) (rc s)
       (add32 (rd s) t1) (re s) (rf s) (rg s).

Definition compress (H : regs) (block : list Z) : regs :=
  let s := fold_left round (combine round_constants (schedule block)) H in
  Regs (add32 (ra H) (ra s)) (add32 (rb H) (rb s))
       (add32 (rc H) (rc s)) (add32 (rd H) (rd s))
       (add32 (re H) (re s)) (add32 (rf H) (rf s))
       (add32 (rg H) (rg s)) (add32 (rh H) (rh s)).

Definition digest_words (msg : list Z) : list Z :=
  let ws := words (pad msg) in
  let H := fold_left compress (blocks (length ws) ws) initial_hash in
  [ra H; rb H; rc H; rd H; re H; rf H; rg H; rh H].

(** [digest('hex')]: lower-case hexadecimal, eight digits a word. *)
Definition hex_digit (d : Z) : ascii :=
  ascii_of_N (Z.to_N (if d <? 10 then 48 + d else 87 + d)).

Definition hex_word (x : Z) : list ascii :=
  map (fun i => hex_digit ((Z.shiftr x (4 * Z.of_nat i)) mod 16))
      (rev (seq 0 8)).

Definition bytes_of_string (s : string) : list Z :=
  map (fun c => Z.of_N (N_of_ascii c)) (list_ascii_of_string s).

Definition hex (s : string) : string :=
  string_of_list_ascii
    (concat (map hex_word (digest_words (bytes_of_string s)))).

End SHA256.

(** ** Token derivation *)

(** The message that [makePrivateID] hashes:
    [server_token + ":" + user_token]. *)
Definition privateIDMessage (server_token user_token : string) : string :=
  server_token +:+ ":" +:+ user_token.

(** Whether a token contains the separator. *)
Fixpoint has_colon (s : string) : bool :=
  match s with
  | EmptyString => false
  | String c rest => Ascii.eqb c ":" || has_colon rest
  end.

(** [makePrivateID (server_token, user_token)]. The result is [null]
    ([JNull]) or the hexadecimal digest ([JString]). Nothing in the body
    can throw and no state is read or written, so the function is a
    plain function of its two arguments. *)
Definition makePrivateID (server_token user_token : jsval) : jsval :=
  if negb (String.eqb (typeof server_token) "string") then JNull
  else if negb (String.eqb (typeof user_token) "string") then JNull
  else
    match server_token, user_token with
    | JString s, JString u =>
        if (String.length s =? 0)%nat then JNull
        else if (String.length u =? 0)%nat then JNull
        else JString (SHA256.hex (privateIDMessage s u))
    | _, _ => JNull   (* not reached: both values are strings here *)
    end.

(** ** Sessions and the connection registry *)

(** The core socket of a request: [remoteAddress], [remoteFamily]. *)
Record Socket : Type := {
  remoteAddress : string;
  remoteFamily : string
}.

(** [sessionObj.serverRequest]: an HTTP request carries its core socket
    as [socket], a WebSocket request as [_socket]; the session objects
    that the JSON-RPC server builds always carry one of the two. *)
Inductive serverRequest_t : Type :=
| http_request (socket : Socket)
| ws_request (_socket : Socket).

(** [requestObj.params]: a handshake request carries [user_token] only,
    later requests carry the [server_token] as well. *)
Record requestParams_t : Type := {
  user_token : string;
  server_token : option string
}.

Record requestObj_t : Type := {
  params : requestParams_t
}.

Record sessionObj_t : Type := {
  endpoint : string;
  requestObj : requestObj_t;
  serverRequest : serverRequest_t
}.

(** [last_update] is written in two ways by the handshake:
    [new Date()] (an object) and [Date.now()] (a number). *)
Inductive last_update_t : Type :=
| DateObject (ms : Z)
| DateNow (ms : Z).

Module connectionObj.
Record t : Type := make {
  user_token : string;
  socket : option Socket;      (* [null] until connected *)
  last_update : last_update_t;
  server_token : string
}.
End connectionObj.

(** One property of [namespace.websocket.connections]. *)
Inductive slot : Type :=
| SNull
| SArray (arr : list connectionObj.t).

Definition slot_length (s : slot) : Z :=
  match s with
  | SNull => 0
  | SArray arr => Z.of_nat (length arr)
  end.

(** [rpc_options], as far as the handshake reads it. *)
Record rpc_options_t : Type := {
  http_only_handshake : bool;
  max_ws_per_ip : Z
}.

Inductive JSONRPC_ERRORS : Type :=
| WRONG_TRANSPORT
| SESSION_CLOSE.

Record infoObj_t : Type := {
  info_numconnections : Z;
  info_maxconnections : Z
}.

Record responseObj_t : Type := {
  message : string;
  numconnections : Z;
  maxconnections : Z;
  peerconnections : Z;
  response_server_token : string
}.

(** What the handler hands to [sendError] or [sendResult]. *)
Inductive reply : Type :=
| sendError (code : JSONRPC_ERRORS) (msg : string) (data : option infoObj_t)
| sendResult (responseObj : responseObj_t).

(** The three failures of the handshake, as the handler words them. *)
Definition WrongTransport : reply :=
  sendError WRONG_TRANSPORT
    "Session handshake must be made through HTTP / HTTPS service." None.

Definition DuplicateToken : reply :=
  sendError SESSION_CLOSE "User token already exists for your IP." None.

Definition TooManyConnections (num max : Z) : reply :=
  sendError SESSION_CLOSE "Too many connections from your IP."
    (Some {| info_numconnections := num; info_maxconnections := max |}).

(** The value of a [return]: [Some b] for [return (b)], [None] for a
    bare [return;]. *)
Definition retval : Type := option bool.

Record outcome : Type := {
  connections_after : option (gmap string slot);
  sent : reply;
  returned : retval
}.

Definition makeConnectionID (sessionObj : sessionObj_t) : string :=
  let socket :=
    match serverRequest sessionObj with
    | http_request socket => socket
    | ws_request _socket => _socket
    end in
  let requestIP := remoteAddress socket in
  let IPFamily := remoteFamily socket in
  IPFamily +:+ ":" +:+ requestIP.

(** The inner [for (count ...)] loop of the duplicate scan over one
    array: [None] when a connection with the requested user token is
    met (the handler returns), else the running count. *)
Fixpoint scan_array (token : string) (arr : list connectionObj.t)
    (num_activeconnections : Z) : option Z :=
  match arr with
  | [] => Some num_activeconnections
  | websocketObj :: rest =>
      if String.eqb (connectionObj.user_token websocketObj) token then None
      else scan_array token rest (num_activeconnections + 1)
  end.

(** The outer [for (var item in connections)] loop. *)
Fixpoint scan_connections (token : string) (items : list (string * slot))
    (num_activeconnections : Z) : option Z :=
  match items with
  | [] => Some num_activeconnections
  | (_, SNull) :: rest => scan_connections token rest num_activeconnections
  | (_, SArray arr) :: rest =>
      match scan_array token arr num_activeconnections with
      | None => None
      | Some n => scan_connections token rest n
      end
  end.

(** [WSS_Handshake (sessionObj)]. [random] is the string
    [String(Math.random()).split("0.").join("")], [now] the clock read
    by [new Date()] or [Date.now()]. *)
Definition WSS_Handshake (rpc_options : rpc_options_t) (random : string)
    (now : Z) (sessionObj : sessionObj_t)
    (connections : option (gmap string slot)) : outcome :=
  if negb (String.prefix "http" (endpoint sessionObj))
     && http_only_handshake rpc_options
  then {| connections_after := connections;
          sent := WrongTransport;
          returned := Some false |}
  else
    let connections : gmap string slot :=
      match connections with
      | None => ∅
      | Some c => c
      end in
    let requestParams := params (requestObj sessionObj) in
    let connectionID := makeConnectionID sessionObj in
    match scan_connections (user_token requestParams)
            (map_to_list connections) 0 with
    | None =>
        {| connections_after := Some connections;
           sent := DuplicateToken;
           returned := None |}
    | Some num_activeconnections =>
        let server_token := random in
        match connections !! connectionID with
        | None | Some SNull =>
            let connectionObj :=
              connectionObj.make (user_token requestParams) None
                (DateObject now) server_token in
            let num_activeconnections := num_activeconnections + 1 in
            {| connections_after :=
                 Some (<[connectionID := SArray [connectionObj]]> connections);
               sent := sendResult
                 {| message := "accept";
                    numconnections := 1;
                    maxconnections := max_ws_per_ip rpc_options;
                    peerconnections := num_activeconnections;
                    response_server_token := server_token |};
               returned := Some true |}
        | Some (SArray arr) =>
            let num_activeconnections := Z.of_nat (length arr) in
            if max_ws_per_ip rpc_options <=? num_activeconnections then
              (* [infoObj] goes out with the error; [responseObj] is not sent *)
              {| connections_after := Some connections;
                 sent := TooManyConnections num_activeconnections
                           (max_ws_per_ip rpc_options);
                 returned := Some true |}
            else
              let connectionObj :=
                connectionObj.make (user_token requestParams) None
                  (DateNow now) server_token in
              let num_activeconnections := num_activeconnections + 1 in
              {| connections_after :=
                   Some (<[connectionID := SArray (arr ++ [connectionObj])]>
                           connections);
                 sent := sendResult
                   {| message := "accept";
                      numconnections := num_activeconnections;
                      maxconnections := max_ws_per_ip rpc_options;
                      peerconnections := num_activeconnections;
                      response_server_token := server_token |};
                 returned := Some true |}
        end
    end.

(** The [for] loop of [handshakeOK] over the identity's array: the
    first connection with the claimed user token decides. *)
Fixpoint handshakeOK_loop (requestParams : requestParams_t)
    (arr : list connectionObj.t) : bool :=
  match arr with
  | [] => false
  | connectionObj :: rest =>
      if String.eqb (connectionObj.user_token connectionObj)
                    (user_token requestParams)
      then
        match server_token requestParams with
        | Some claimed =>
            if String.eqb (connectionObj.server_token connectionObj) claimed
            then true else false
        | None => false       (* a string is never [==] to [undefined] *)
        end
      else handshakeOK_loop requestParams rest
  end.

(** [handshakeOK (sessionObj)]. Reading a property of
    [namespace.websocket.connections] while that is still [undefined]
    throws. *)
Definition handshakeOK (sessionObj : sessionObj_t)
    (connections : option (gmap string slot)) : completion bool :=
  let connectionID := makeConnectionID sessionObj in
  match connections with
  | None => TypeError
  | Some connections =>
      match connections !! connectionID with
      | None | Some SNull => Normal false
      | Some (SArray arr) =>
          if (length arr =? 0)%nat then Normal false
          else Normal (handshakeOK_loop (params (requestObj sessionObj)) arr)
      end
  end.

(** [namespace.websocket.connections[connectionID]], [None] when it is
    [undefined]. *)
Definition slotFor (connections : option (gmap string slot))
    (connectionID : string) : option slot :=
  match connections with
  | None => None
  | Some c => c !! connectionID
  end.

(** Number of connection objects kept for one identity. *)
Definition activeCountFor (connections : option (gmap string slot))
    (connectionID : string) : Z :=
  match slotFor connections connectionID with
  | Some s => slot_length s
  | None => 0
  end.

(** Number of connection objects kept for all identities together. *)
Definition count_items (items : list (string * slot)) : Z :=
  foldr (fun item acc => slot_length (snd item) + acc) 0 items.

Definition totalCount (connections : option (gmap string slot)) : Z :=
  match connections with
  | None => 0
  | Some c => count_items (map_to_list c)
  end.

(** ** The client's request correlator *)

(** A ["message"] event of the WebSocket. *)
Record MessageEvent : Type := {
  data : string
}.

(** A parsed JSON-RPC 2.0 response: the [id] and the result or error. *)
Inductive rpc_body : Type :=
| body_result (value : string)
| body_error (error : string).

Record rpc_object : Type := {
  id : string;
  body : rpc_body
}.

(** The request handed to [RPC]. *)
Record rpc_request : Type := {
  request_method : string;
  request_params : gmap string string;
  request_id : string
}.

(** How far a call has come once the inbound messages so far are read. *)
Inductive call_state : Type :=
| Resolved (result : rpc_object) (unread : list MessageEvent)
| Suspended      (* awaiting a message that has not arrived *)
| Rejected.      (* [JSON.parse] threw *)

(** Modelled from the spec: [RPC], a function of the client library,
    sends the request and suspends awaiting the socket's next inbound
    message event; [inbound] is what arrives from then on. *)
Definition RPC (inbound : list MessageEvent)
    : option (MessageEvent * list MessageEvent) :=
  match inbound with
  | [] => None
  | rpc_result :: rest => Some (rpc_result, rest)
  end.

Section Correlator.

(** [JSON.parse], [None] when it throws. *)
Variable JSON_parse : string -> option rpc_object.

(** The [while (requestID != result.id)] loop; each turn awaits
    [webSocket.onEventPromise("message")]. *)
Fixpoint await_reply (requestID : string) (result : rpc_object)
    (inbound : list MessageEvent) {struct inbound} : call_state :=
  if negb (String.eqb requestID (id result)) then
    match inbound with
    | [] => Suspended
    | rpc_result :: rest =>
        match JSON_parse (data rpc_result) with
        | None => Rejected
        | Some result => await_reply requestID result rest
        end
    end
  else Resolved result inbound.

(** [callContractAPI (APIFunc, params)]. [userToken] and [serverToken]
    are those of [this.cypherpoker.p2p]; [random] is
    [String(Math.random()).split(".")[1]]. *)
Definition callContractAPI (userToken serverToken : string)
    (APIFunc : string) (params : gmap string string) (random : string)
    (inbound : list MessageEvent) : rpc_request * call_state :=
  let sendObj :=
    <["server_token" := serverToken]> (<["user_token" := userToken]> params) in
  let requestID := "CPSC" +:+ random in
  ({| request_method := APIFunc;
      request_params := sendObj;
      request_id := requestID |},
   match RPC inbound with
   | None => Suspended
   | Some (rpc_result, rest) =>
       match JSON_parse (data rpc_result) with
       | None => Rejected
       | Some result => await_reply requestID result rest
       end
   end).

End Correlator.

(** ** Runs of the handshake, and sample data *)

(** Whether the identity has an array in the registry: the negation of
    the test that opens the admission branch of [WSS_Handshake]. *)
Definition has_array (connections : option (gmap string slot))
    (connectionID : string) : bool :=
  match slotFor connections connectionID with
  | Some (SArray _) => true
  | _ => false
  end.

(** One handshake request with the random draw and the clock reading
    that its handling consumes. *)
Record handshake_call : Type := {
  call_random : string;
  call_now : Z;
  call_session : sessionObj_t
}.

(** The handler run on a sequence of requests, one after the other. *)
Fixpoint handshakes (rpc_options : rpc_options_t)
    (calls : list handshake_call)
    (connections : option (gmap string slot)) : option (gmap string slot) :=
  match calls with
  | [] => connections
  | call :: rest =>
      handshakes rpc_options rest
        (connections_after
           (WSS_Handshake rpc_options (call_random call) (call_now call)
              (call_session call) connections))
  end.

(** The registry invariant on user tokens: within the array of one
    identity no two connections carry the same user token. *)
Definition unique_tokens (connections : option (gmap string slot)) : Prop :=
  forall k arr,
    slotFor connections k = Some (SArray arr) ->
    NoDup (connectionObj.user_token <$> arr).

(** A handshake request of the client at IPv4 address [address]. *)
Definition http_session (address token : string) : sessionObj_t :=
  {| endpoint := "http";
     requestObj := {| params := {| user_token := token;
                                   server_token := None |} |};
     serverRequest := http_request {| remoteAddress := address;
                                      remoteFamily := "IPv4" |} |}.

Definition ws_session (address token : string) (claimed : option string)
    : sessionObj_t :=
  {| endpoint := "ws";
     requestObj := {| params := {| user_token := token;
                                   server_token := claimed |} |};
     serverRequest := ws_request {| remoteAddress := address;
                                    remoteFamily := "IPv4" |} |}.

Definition pending (user_token server_token : string) : connectionObj.t :=
  connectionObj.make user_token None (DateNow 0) server_token.

(** A stand-in for [JSON.parse] on sample messages: the data of a
    message is read as ["<id> <result>"], and text without a space is
    not accepted. *)
Fixpoint split_at_space (s : string) : option (string * string) :=
  match s with
  | EmptyString => None
  | String c rest =>
      if Ascii.eqb c " " then Some (EmptyString, rest)
      else
        match split_at_space rest with
        | Some (word, tail) => Some (String c word, tail)
        | None => None
        end
  end.

Definition sample_parse (text : string) : option rpc_object :=
  match split_at_space text with
  | Some (i, value) => Some {| id := i; body := body_result value |}
  | None => None
  end.

(** ** [allSessions], and views of the registry *)

(** The inner [for (count ...)] loop of [allSessions] over one array;
    [connectionObj.socket != null] decides when [activeOnly] holds. *)
Fixpoint collect_array (activeOnly : bool) (arr : list connectionObj.t)
    (returnArr : list connectionObj.t) : list connectionObj.t :=
  match arr with
  | [] => returnArr
  | connectionObj :: rest =>
      collect_array activeOnly rest
        (if activeOnly then
           match connectionObj.socket connectionObj with
           | Some _ => returnArr ++ [connectionObj]
           | None => returnArr
           end
         else returnArr ++ [connectionObj])
  end.

(** The outer [for (var cid in connections)] loop of [allSessions]. The
    loop reads [connections[cid].length] without a test for [null]. *)
Fixpoint collect_connections (activeOnly : bool)
    (items : list (string * slot)) (returnArr : list connectionObj.t)
    : completion (list connectionObj.t) :=
  match items with
  | [] => Normal returnArr
  | (_, SNull) :: _ => TypeError
  | (_, SArray arr) :: rest =>
      collect_connections activeOnly rest
        (collect_array activeOnly arr returnArr)
  end.

(** [allSessions (activeOnly = true)]; [None] is the omitted argument.
    A [for ... in] over [undefined] runs no turn. The identities are
    visited in the order of [map_to_list]; what is proved of the result
    does not depend on that order. *)
Definition allSessions (activeOnly : option bool)
    (connections : option (gmap string slot))
    : completion (list connectionObj.t) :=
  let activeOnly := match activeOnly with Some b => b | None => true end in
  match connections with
  | None => Normal []
  | Some c => collect_connections activeOnly (map_to_list c) []
  end.

(** [namespace.websocket.connections[connectionID][count]], [None] when
    there is no such element. *)
Definition connectionAt (connections : option (gmap string slot))
    (connectionID : string) (count : nat) : option connectionObj.t :=
  match slotFor connections connectionID with
  | Some (SArray arr) => arr !! count
  | _ => None
  end.


(** No two connections of the registry, of whatever identities, carry
    the same user token. *)
Definition tokens_unique (connections : option (gmap string slot)) : Prop :=
  forall k k' i j c c',
    connectionAt connections k i = Some c ->
    connectionAt connections k' j = Some c' ->
    connectionObj.user_token c = connectionObj.user_token c' ->
    k = k' /\ i = j.


(** The core socket that [makeConnectionID] reads. *)
Definition core_socket (sessionObj : sessionObj_t) : Socket :=
  match serverRequest sessionObj with
  | http_request socket => socket
  | ws_request _socket => _socket
  end.

(** Four handshake requests of one address, with four user tokens. *)
Definition sample_calls : list handshake_call :=
  map (fun token => {| call_random := "9" +:+ token;
                       call_now := 0;
                       call_session := http_session "10.0.0.1" token |})
      ["1111"; "2222"; "3333"; "4444"]%string.

(** What [allSessions] keeps: every connection, or with [activeOnly]
    those whose socket is not [null]. *)
Definition listed (activeOnly : option bool) (c : connectionObj.t) : bool :=
  match activeOnly with
  | Some false => true
  | _ => match connectionObj.socket c with Some _ => true | None => false end
  end.

(** A connection whose WebSocket is attached, and a registry with a
    pending and a connected session of one address. *)
Definition connected (user_token server_token : string) : connectionObj.t :=
  connectionObj.make user_token
    (Some {| remoteAddress := "10.0.0.1"; remoteFamily := "IPv4" |})
    (DateNow 0) server_token.

Definition sample_mixed_registry : option (gmap string slot) :=
  Some {[ "IPv4:10.0.0.1" :=
            SArray [pending "1111" "1"; connected "2222" "2"] ]}.

(** What the handshake keeps of the registry for [allSessions]: no slot
    is [null], and no connection has a socket yet. *)
Definition all_pending (connections : option (gmap string slot)) : Prop :=
  (forall k, slotFor connections k <> Some SNull)
  /\ (forall k i c, connectionAt connections k i = Some c ->
                    connectionObj.socket c = None).

(** A message that parses to a response with another id than the one
    awaited. *)
Definition foreign_reply (JSON_parse : string -> option rpc_object)
    (requestID : string) (m : MessageEvent) : Prop :=
  exists r, JSON_parse (data m) = Some r /\ id r <> requestID.

(** The characters of a lower-case hexadecimal digest. *)
Definition is_hex_char (c : ascii) : bool :=
  let n := N_of_ascii c in
  ((48 <=? n) && (n <=? 57) || (97 <=? n) && (n <=? 102))%N.

(** Sample configuration and registry. *)
Definition sample_options : rpc_options_t :=
  {| http_only_handshake := true; max_ws_per_ip := 3 |}.

Definition sample_registry : option (gmap string slot) :=
  Some {[ "IPv4:10.0.0.1" := SArray [pending "1111" "1"] ]}.

(** * Properties *)

(** ** SHA-256 test vectors (FIPS 180-4 examples) *)

Example sha256_empty :
  SHA256.hex "" =
  "e3b0c44298fc1c149afbf4c8996fb92427ae41e4649b934ca495991b7852b855"%string.
Proof. vm_compute. reflexivity. Qed.

Example sha256_abc :
  SHA256.hex "abc" =
  "ba7816bf8f01cfea414140de5dae2223b00361a396177a9cb410ff61f20015ad"%string.
Proof. vm_compute. reflexivity. Qed.

Example sha256_two_blocks :
  SHA256.hex "abcdbcdecdefdefgefghfghighijhijkijkljklmklmnlmnomnopnopq" =
  "248d6a61d20638b8e5c026930c3e6039a33ce45964ff2167f6ecedd419db06c1"%string.
Proof. vm_compute. reflexivity. Qed.

(** ** [makePrivateID] *)

Lemma length_eqb_0 (s : string) :
  (String.length s =? 0)%nat = false <-> s <> ""%string.
Proof. destruct s; simpl; split; intros; congruence. Qed.




(** C8. When either argument is missing ([undefined]), is not a string
    or is the empty string, [makePrivateID] returns [null], not a
    digest. The function is total: no input makes it throw. *)
Theorem makePrivateID_invalid (server_token user_token : jsval) :
  typeof server_token <> "string"%string \/ server_token = JString ""
  \/ typeof user_token <> "string"%string \/ user_token = JString "" ->
  makePrivateID server_token user_token = JNull.
Proof.
  intros H. unfold makePrivateID.
  destruct server_token as [| | ? | ? | s |]; try reflexivity;
    destruct user_token as [| | ? | ? | u |]; try reflexivity.
  simpl. destruct H as [H | [H | [H | H]]].
  - contradiction H; reflexivity.
  - injection H as ->. reflexivity.
  - contradiction H; reflexivity.
  - injection H as ->. simpl. destruct (String.length s =? 0)%nat; reflexivity.
Qed.

Lemma makePrivateID_invalid_witness :
  makePrivateID JUndefined (JString "7060939278321507") = JNull
  /\ makePrivateID (JString "9789091435706088") (JString "") = JNull
  /\ makePrivateID (JNumber 7) (JString "7060939278321507") = JNull.
Proof.
  split; [| split].
  - apply (makePrivateID_invalid JUndefined (JString "7060939278321507")).
    left. discriminate.
  - apply (makePrivateID_invalid (JString "9789091435706088") (JString "")).
    right; right; right. reflexivity.
  - apply (makePrivateID_invalid (JNumber 7) (JString "7060939278321507")).
    left. discriminate.
Defined.

(** A digest comes out only for two non-empty strings. *)
Lemma makePrivateID_string_inv (server_token user_token : jsval) (h : string) :
  makePrivateID server_token user_token = JString h ->
  exists s u, server_token = JString s /\ user_token = JString u
              /\ s <> ""%string /\ u <> ""%string
              /\ h = SHA256.hex (privateIDMessage s u).
Proof.
  unfold makePrivateID.
  destruct server_token as [| | ? | ? | s |]; try discriminate;
    destruct user_token as [| | ? | ? | u |]; try discriminate.
  simpl.
  destruct (String.length s =? 0)%nat eqn:Hs; [discriminate |].
  destruct (String.length u =? 0)%nat eqn:Hu; [discriminate |].
  intros [= <-]. exists s, u.
  apply length_eqb_0 in Hs, Hu. auto.
Qed.

Lemma append_empty (x : string) : "" +:+ x = x.
Proof. reflexivity. Qed.

Lemma append_String (a : ascii) (s x : string) :
  String a s +:+ x = String a (s +:+ x).
Proof. reflexivity. Qed.

Lemma message_split (s u x y : string) :
  has_colon s = false -> has_colon u = false ->
  s +:+ ":" +:+ x = u +:+ ":" +:+ y -> s = u /\ x = y.
Proof.
  revert u. induction s as [| a s IH]; intros [| b u] Hs Hu E;
    rewrite ?append_String, ?append_empty in E.
  - injection E as ->. auto.
  - injection E as <- _. simpl in Hu. discriminate.
  - injection E as -> _. simpl in Hs. discriminate.
  - injection E as -> E. simpl in Hs, Hu.
    apply orb_false_iff in Hs as [_ Hs], Hu as [_ Hu].
    destruct (IH u Hs Hu E) as [-> ->]. auto.
Qed.




(** ** The handshake: transport check *)

(** C9. A handshake on an endpoint that is not HTTP / HTTPS while
    [http_only_handshake] is set fails with [WrongTransport] and leaves
    the registry as it was (not even the registry object is created);
    with the flag unset no handshake fails with [WrongTransport]. *)
Theorem wrong_transport_rejected (rpc_options : rpc_options_t)
    (random : string) (now : Z) (sessionObj : sessionObj_t)
    (connections : option (gmap string slot)) :
  (String.prefix "http" (endpoint sessionObj) = false ->
   http_only_handshake rpc_options = true ->
   WSS_Handshake rpc_options random now sessionObj connections
   = {| connections_after := connections;
        sent := WrongTransport;
        returned := Some false |})
  /\ (http_only_handshake rpc_options = false ->
      sent (WSS_Handshake rpc_options random now sessionObj connections)
      <> WrongTransport).
Proof.
  split.
  - intros Hp Hf. unfold WSS_Handshake. rewrite Hp, Hf. reflexivity.
  - intros Hf. unfold WSS_Handshake. rewrite Hf, andb_false_r.
    destruct (scan_connections _ _ _); [| discriminate].
    destruct (_ !! _) as [[| arr] |]; try discriminate.
    destruct (_ <=? _); discriminate.
Qed.

(** ** The handshake: duplicate scan *)

Lemma scan_array_None (token : string) (arr : list connectionObj.t) (n : Z) :
  scan_array token arr n = None
  <-> exists c, c ∈ arr /\ connectionObj.user_token c = token.
Proof.
  revert n. induction arr as [| c arr IH]; intros n; simpl.
  - split; [discriminate |]. intros (c & Hc & _). inversion Hc.
  - destruct (String.eqb_spec (connectionObj.user_token c) token) as [E | E].
    + split; [| reflexivity]. intros _. exists c. split; [left | exact E].
    + rewrite IH. split; intros (c' & Hc' & E').
      * exists c'. split; [right |]; assumption.
      * exists c'. split; [| assumption].
        apply elem_of_cons in Hc' as [-> | Hc']; [contradiction | assumption].
Qed.

Lemma scan_array_Some (token : string) (arr : list connectionObj.t) (n m : Z) :
  scan_array token arr n = Some m -> m = n + Z.of_nat (length arr).
Proof.
  revert n. induction arr as [| c arr IH]; intros n; simpl.
  - intros [= <-]. lia.
  - destruct (String.eqb _ _); [discriminate |].
    intros H. apply IH in H. lia.
Qed.

Lemma scan_connections_None (token : string) (items : list (string * slot))
    (n : Z) :
  scan_connections token items n = None
  <-> exists k arr c, (k, SArray arr) ∈ items /\ c ∈ arr
                      /\ connectionObj.user_token c = token.
Proof.
  revert n. induction items as [| [k s] items IH]; intros n; simpl.
  - split; [discriminate |]. intros (k & arr & c & H & _). inversion H.
  - destruct s as [| arr].
    + rewrite IH. split; intros (k' & arr' & c & H & Hc).
      * exists k', arr', c. split; [right |]; assumption.
      * exists k', arr', c. split; [| assumption].
        apply elem_of_cons in H as [[= ] | H]; assumption.
    + destruct (scan_array token arr n) as [m |] eqn:Harr.
      * rewrite IH. split; intros (k' & arr' & c & H & Hc).
        -- exists k', arr', c. split; [right |]; assumption.
        -- exists k', arr', c. split; [| assumption].
           apply elem_of_cons in H as [[= -> ->] | H]; [| assumption].
           assert (scan_array token arr n = None) as E
             by (apply scan_array_None; exists c; exact Hc).
           congruence.
      * split; [| reflexivity]. intros _.
        apply scan_array_None in Harr as (c & Hc).
        exists k, arr, c. split; [left | exact Hc].
Qed.

Lemma scan_connections_Some (token : string) (items : list (string * slot))
    (n m : Z) :
  scan_connections token items n = Some m -> m = n + count_items items.
Proof.
  revert n. induction items as [| [k s] items IH]; intros n; simpl.
  - intros [= <-]. lia.
  - destruct s as [| arr]; simpl.
    + intros H. apply IH in H. lia.
    + destruct (scan_array token arr n) as [n' |] eqn:Harr; [| discriminate].
      apply scan_array_Some in Harr. intros H. apply IH in H. lia.
Qed.

(** The scan does not depend on the order in which [for ... in] visits
    the identities. *)
Lemma scan_connections_perm (token : string)
    (items items' : list (string * slot)) :
  items ≡ₚ items' ->
  scan_connections token items 0 = scan_connections token items' 0.
Proof.
  intros Hp.
  assert (Hc : count_items items = count_items items').
  { induction Hp as [| [k s] l l' _ IH | [k s] [k' s'] l | l l' l'' _ IH _ IH'];
      unfold count_items in *; simpl; lia. }
  destruct (scan_connections token items 0) as [m |] eqn:H;
    destruct (scan_connections token items' 0) as [m' |] eqn:H'.
  - apply scan_connections_Some in H, H'. f_equal. lia.
  - exfalso. apply scan_connections_None in H' as (k & arr & c & Hin & Hc').
    rewrite <- Hp in Hin.
    assert (scan_connections token items 0 = None) as E
      by (apply scan_connections_None; eauto).
    congruence.
  - exfalso. apply scan_connections_None in H as (k & arr & c & Hin & Hc').
    rewrite Hp in Hin.
    assert (scan_connections token items' 0 = None) as E
      by (apply scan_connections_None; eauto).
    congruence.
  - reflexivity.
Qed.

(** The scan over the registry, in terms of the registry. *)
Lemma scan_registry_None (token : string) (connections : gmap string slot) :
  scan_connections token (map_to_list connections) 0 = None
  <-> exists k arr c, connections !! k = Some (SArray arr) /\ c ∈ arr
                      /\ connectionObj.user_token c = token.
Proof.
  rewrite scan_connections_None.
  split; intros (k & arr & c & H & Hc); exists k, arr, c; split; try assumption.
  - apply elem_of_map_to_list in H. exact H.
  - apply elem_of_map_to_list. exact H.
Qed.

(** C2, as the code has it. The transport check comes first; a
    handshake that passes it and asks for a user token that some
    connection of any identity already carries fails with
    [DuplicateToken], inserts nothing and leaves the registry as it
    was. *)
Theorem duplicate_token_rejected (rpc_options : rpc_options_t)
    (random : string) (now : Z) (sessionObj : sessionObj_t)
    (connections : gmap string slot)
    (k : string) (arr : list connectionObj.t) (c : connectionObj.t) :
  String.prefix "http" (endpoint sessionObj) = true
  \/ http_only_handshake rpc_options = false ->
  connections !! k = Some (SArray arr) ->
  c ∈ arr ->
  connectionObj.user_token c = user_token (params (requestObj sessionObj)) ->
  WSS_Handshake rpc_options random now sessionObj (Some connections)
  = {| connections_after := Some connections;
       sent := DuplicateToken;
       returned := None |}.
Proof.
  intros Ht Hk Hc Htok. unfold WSS_Handshake.
  replace (negb (String.prefix "http" (endpoint sessionObj))
           && http_only_handshake rpc_options) with false
    by (destruct Ht as [-> | ->]; [| rewrite andb_false_r]; reflexivity).
  assert (scan_connections (user_token (params (requestObj sessionObj)))
            (map_to_list connections) 0 = None) as ->
    by (apply scan_registry_None; exists k, arr, c; auto).
  reflexivity.
Qed.

Lemma wrong_transport_rejected_witness :
  WSS_Handshake {| http_only_handshake := true; max_ws_per_ip := 3 |}
    "9789091435706088" 0 (ws_session "10.0.0.1" "7060939278321507" None) None
  = {| connections_after := None;
       sent := WrongTransport;
       returned := Some false |}
  /\ sent (WSS_Handshake {| http_only_handshake := false; max_ws_per_ip := 3 |}
             "9789091435706088" 0
             (ws_session "10.0.0.1" "7060939278321507" None) None)
     <> WrongTransport.
Proof.
  split.
  - apply (proj1 (wrong_transport_rejected
                    {| http_only_handshake := true; max_ws_per_ip := 3 |}
                    "9789091435706088" 0
                    (ws_session "10.0.0.1" "7060939278321507" None) None));
      reflexivity.
  - apply (proj2 (wrong_transport_rejected
                    {| http_only_handshake := false; max_ws_per_ip := 3 |}
                    "9789091435706088" 0
                    (ws_session "10.0.0.1" "7060939278321507" None) None)).
    reflexivity.
Defined.

Lemma duplicate_token_rejected_witness :
  WSS_Handshake {| http_only_handshake := true; max_ws_per_ip := 3 |}
    "9789091435706088" 0 (http_session "10.0.0.2" "7060939278321507")
    (Some {[ "IPv4:10.0.0.1" := SArray [pending "7060939278321507" "1"] ]})
  = {| connections_after :=
         Some {[ "IPv4:10.0.0.1" := SArray [pending "7060939278321507" "1"] ]};
       sent := DuplicateToken;
       returned := None |}.
Proof.
  apply (duplicate_token_rejected _ _ _ _ _ "IPv4:10.0.0.1"
           [pending "7060939278321507" "1"] (pending "7060939278321507" "1")).
  - left. reflexivity.
  - apply lookup_singleton_eq.
  - apply list_elem_of_here.
  - reflexivity.
Defined.

(** C2 fails as stated: the duplicate scan is not reached by a request
    that the transport check turns away. The request below reuses the
    user token of a connection in the registry, and fails with
    [WrongTransport]. *)
Lemma duplicate_token_wrong_transport :
  let rpc_options := {| http_only_handshake := true; max_ws_per_ip := 3 |} in
  let c := pending "7060939278321507" "1" in
  let connections : gmap string slot := {[ "IPv4:10.0.0.1" := SArray [c] ]} in
  let sessionObj := ws_session "10.0.0.1" "7060939278321507" None in
  let out := WSS_Handshake rpc_options "9789091435706088" 0 sessionObj
               (Some connections) in
  (connections !! "IPv4:10.0.0.1" = Some (SArray [c])
   /\ c ∈ [c]
   /\ connectionObj.user_token c = user_token (params (requestObj sessionObj)))
  /\ sent out = WrongTransport
  /\ sent out <> DuplicateToken.
Proof.
  cbv zeta. split; [| split].
  - split; [apply lookup_singleton_eq |].
    split; [apply list_elem_of_here | reflexivity].
  - reflexivity.
  - discriminate.
Qed.

(** ** The handshake: admission *)

Lemma count_items_perm (items items' : list (string * slot)) :
  items ≡ₚ items' -> count_items items = count_items items'.
Proof.
  intros Hp.
  induction Hp as [| [k s] l l' _ IH | [k s] [k' s'] l | l l' l'' _ IH _ IH'];
    unfold count_items in *; simpl; lia.
Qed.

(** Writing slot [s] at [k] changes the total by the change at [k]. *)
Lemma count_items_insert (connections : gmap string slot) (k : string)
    (s : slot) :
  count_items (map_to_list (<[k := s]> connections))
  = count_items (map_to_list connections)
    - activeCountFor (Some connections) k + slot_length s.
Proof.
  rewrite <- (insert_delete_eq connections k s).
  rewrite (count_items_perm _ _
             (map_to_list_insert (delete k connections) k s
                (lookup_delete_eq connections k))).
  unfold activeCountFor, slotFor.
  destruct (connections !! k) as [s0 |] eqn:Hk.
  - rewrite <- (count_items_perm _ _ (map_to_list_delete connections k s0 Hk)).
    unfold count_items. simpl. lia.
  - rewrite (delete_id connections k Hk). unfold count_items. simpl. lia.
Qed.

(** A handshake on a still undefined registry runs as on the empty one,
    once past the transport check. *)
Lemma WSS_Handshake_undefined (rpc_options : rpc_options_t) (random : string)
    (now : Z) (sessionObj : sessionObj_t) :
  sent (WSS_Handshake rpc_options random now sessionObj None) <> WrongTransport ->
  WSS_Handshake rpc_options random now sessionObj None
  = WSS_Handshake rpc_options random now sessionObj (Some ∅).
Proof.
  unfold WSS_Handshake.
  destruct (negb _ && _); [| reflexivity].
  intros H. contradiction H. reflexivity.
Qed.

(** The two ways in which a handshake is accepted. *)
Lemma WSS_Handshake_accept_inv (rpc_options : rpc_options_t) (random : string)
    (now : Z) (sessionObj : sessionObj_t) (connections : gmap string slot)
    (r : responseObj_t) :
  sent (WSS_Handshake rpc_options random now sessionObj (Some connections))
  = sendResult r ->
  let connectionID := makeConnectionID sessionObj in
  let token := user_token (params (requestObj sessionObj)) in
  (has_array (Some connections) connectionID = false
   /\ WSS_Handshake rpc_options random now sessionObj (Some connections)
      = {| connections_after :=
             Some (<[connectionID :=
                       SArray [connectionObj.make token None
                                 (DateObject now) random]]> connections);
           sent := sendResult
             {| message := "accept";
                numconnections := 1;
                maxconnections := max_ws_per_ip rpc_options;
                peerconnections := count_items (map_to_list connections) + 1;
                response_server_token := random |};
           returned := Some true |})
  \/ (exists arr,
        connections !! connectionID = Some (SArray arr)
        /\ Z.of_nat (length arr) < max_ws_per_ip rpc_options
        /\ WSS_Handshake rpc_options random now sessionObj (Some connections)
           = {| connections_after :=
                  Some (<[connectionID :=
                            SArray (arr ++ [connectionObj.make token None
                                              (DateNow now) random])]>
                          connections);
                sent := sendResult
                  {| message := "accept";
                     numconnections := Z.of_nat (length arr) + 1;
                     maxconnections := max_ws_per_ip rpc_options;
                     peerconnections := Z.of_nat (length arr) + 1;
                     response_server_token := random |};
                returned := Some true |}).
Proof.
  unfold WSS_Handshake, has_array, slotFor.
  destruct (negb _ && _); [discriminate |].
  destruct (scan_connections _ _ _) as [n |] eqn:Hscan; [| discriminate].
  apply scan_connections_Some in Hscan. rewrite Z.add_0_l in Hscan. subst n.
  destruct (connections !! makeConnectionID sessionObj) as [[| arr] |] eqn:Hk;
    simpl; intros H.
  - left. split; reflexivity.
  - destruct (Z.leb_spec (max_ws_per_ip rpc_options) (Z.of_nat (length arr)));
      [discriminate |].
    right. exists arr. repeat split; [assumption].
  - left. split; reflexivity.
Qed.

(** An accepted handshake ran on a defined registry, or on an undefined
    one as on the empty registry. *)
Lemma WSS_Handshake_accepted (rpc_options : rpc_options_t) (random : string)
    (now : Z) (sessionObj : sessionObj_t)
    (connections : option (gmap string slot)) (r : responseObj_t) :
  sent (WSS_Handshake rpc_options random now sessionObj connections)
  = sendResult r ->
  exists c : gmap string slot,
    WSS_Handshake rpc_options random now sessionObj connections
    = WSS_Handshake rpc_options random now sessionObj (Some c)
    /\ (forall k, slotFor connections k = slotFor (Some c) k).
Proof.
  intros Hsent. destruct connections as [c |]; [exists c; auto |].
  exists ∅. split.
  - apply WSS_Handshake_undefined. rewrite Hsent. discriminate.
  - intros k. simpl. rewrite lookup_empty. reflexivity.
Qed.




(** ** The handshake: capacity *)

(** An identity without an array is admitted whatever the limit is. *)
Lemma new_identity_admitted (rpc_options : rpc_options_t) (random : string)
    (now : Z) (sessionObj : sessionObj_t) (connections : gmap string slot)
    (n : Z) :
  String.prefix "http" (endpoint sessionObj) = true
  \/ http_only_handshake rpc_options = false ->
  scan_connections (user_token (params (requestObj sessionObj)))
    (map_to_list connections) 0 = Some n ->
  has_array (Some connections) (makeConnectionID sessionObj) = false ->
  exists r,
    sent (WSS_Handshake rpc_options random now sessionObj (Some connections))
    = sendResult r
    /\ activeCountFor
         (connections_after
            (WSS_Handshake rpc_options random now sessionObj (Some connections)))
         (makeConnectionID sessionObj) = 1.
Proof.
  intros Ht Hscan Hnew. unfold WSS_Handshake, has_array, slotFor in *.
  replace (negb (String.prefix "http" (endpoint sessionObj))
           && http_only_handshake rpc_options) with false
    by (destruct Ht as [-> | ->]; [| rewrite andb_false_r]; reflexivity).
  rewrite Hscan.
  destruct (connections !! makeConnectionID sessionObj) as [[| arr] |];
    try discriminate; eexists; (split; [reflexivity |]);
    unfold activeCountFor; simpl; rewrite lookup_insert_eq; reflexivity.
Qed.

(** With a limit of at least one, no handshake takes any identity
    beyond the limit. *)
Lemma capacity_preserved (rpc_options : rpc_options_t) (random : string)
    (now : Z) (sessionObj : sessionObj_t)
    (connections : option (gmap string slot)) (k : string) :
  1 <= max_ws_per_ip rpc_options ->
  activeCountFor connections k <= max_ws_per_ip rpc_options ->
  activeCountFor
    (connections_after
       (WSS_Handshake rpc_options random now sessionObj connections)) k
  <= max_ws_per_ip rpc_options.
Proof.
  intros Hmax Hk. unfold WSS_Handshake.
  destruct (negb _ && _); [exact Hk |].
  assert (Hk' : activeCountFor
                  (Some match connections with Some c => c | None => ∅ end) k
                <= max_ws_per_ip rpc_options).
  { destruct connections; [exact Hk |].
    unfold activeCountFor. simpl. rewrite lookup_empty. lia. }
  clear Hk. revert Hk'.
  generalize (match connections with Some c => c | None => ∅ end).
  intros c Hk.
  destruct (scan_connections _ _ _); [| exact Hk].
  destruct (c !! makeConnectionID sessionObj) as [[| arr] |] eqn:Hid.
  - unfold activeCountFor in *. simpl in *.
    destruct (decide (makeConnectionID sessionObj = k)) as [-> | Hne].
    + rewrite lookup_insert_eq. simpl. lia.
    + rewrite lookup_insert_ne by exact Hne. exact Hk.
  - destruct (Z.leb_spec (max_ws_per_ip rpc_options) (Z.of_nat (length arr)));
      [exact Hk |].
    unfold activeCountFor in *. simpl in *.
    destruct (decide (makeConnectionID sessionObj = k)) as [-> | Hne].
    + rewrite lookup_insert_eq. simpl. rewrite length_app. simpl. lia.
    + rewrite lookup_insert_ne by exact Hne. exact Hk.
  - unfold activeCountFor in *. simpl in *.
    destruct (decide (makeConnectionID sessionObj = k)) as [-> | Hne].
    + rewrite lookup_insert_eq. simpl. lia.
    + rewrite lookup_insert_ne by exact Hne. exact Hk.
Qed.

(** Capacity invariant for limits of at least one: from a fresh server
    on, whatever the requests, no identity has more than
    [max_ws_per_ip] connections. *)
Lemma capacity_invariant (rpc_options : rpc_options_t)
    (calls : list handshake_call) (k : string) :
  1 <= max_ws_per_ip rpc_options ->
  activeCountFor (handshakes rpc_options calls None) k
  <= max_ws_per_ip rpc_options.
Proof.
  intros Hmax.
  assert (H : forall connections,
             activeCountFor connections k <= max_ws_per_ip rpc_options ->
             activeCountFor (handshakes rpc_options calls connections) k
             <= max_ws_per_ip rpc_options).
  { induction calls as [| call calls IH]; intros connections Hk; simpl.
    - exact Hk.
    - apply IH, capacity_preserved; assumption. }
  apply H. unfold activeCountFor. simpl. lia.
Qed.

(** An identity at the limit (of at least one) is turned away with
    [TooManyConnections] and the registry stays as it is, when the
    request passes the transport check and the duplicate scan. *)
Lemma capacity_full_rejected (rpc_options : rpc_options_t) (random : string)
    (now : Z) (sessionObj : sessionObj_t) (connections : gmap string slot)
    (n : Z) :
  String.prefix "http" (endpoint sessionObj) = true
  \/ http_only_handshake rpc_options = false ->
  scan_connections (user_token (params (requestObj sessionObj)))
    (map_to_list connections) 0 = Some n ->
  1 <= max_ws_per_ip rpc_options ->
  activeCountFor (Some connections) (makeConnectionID sessionObj)
  = max_ws_per_ip rpc_options ->
  WSS_Handshake rpc_options random now sessionObj (Some connections)
  = {| connections_after := Some connections;
       sent := TooManyConnections (max_ws_per_ip rpc_options)
                 (max_ws_per_ip rpc_options);
       returned := Some true |}.
Proof.
  intros Ht Hscan Hmax Hfull. unfold WSS_Handshake.
  replace (negb (String.prefix "http" (endpoint sessionObj))
           && http_only_handshake rpc_options) with false
    by (destruct Ht as [-> | ->]; [| rewrite andb_false_r]; reflexivity).
  rewrite Hscan. unfold activeCountFor in Hfull. simpl in Hfull.
  destruct (connections !! makeConnectionID sessionObj) as [[| arr] |];
    simpl in Hfull; try lia.
  rewrite Hfull, Z.leb_refl. reflexivity.
Qed.

(** C1 at the failing configuration. With [max_ws_per_ip = 0] the first
    handshake of a new identity on a fresh server is accepted and the
    identity then has one connection, more than the limit; the path for
    an identity that has an (empty) array turns the same request away
    with [TooManyConnections]. *)
Theorem first_handshake_ignores_limit :
  let rpc_options := {| http_only_handshake := true; max_ws_per_ip := 0 |} in
  let sessionObj := http_session "10.0.0.1" "7060939278321507" in
  let out := WSS_Handshake rpc_options "9789091435706088" 0 sessionObj None in
  let out' := WSS_Handshake rpc_options "9789091435706088" 0 sessionObj
                (Some {[ "IPv4:10.0.0.1" := SArray [] ]}) in
  sent out = sendResult
    {| message := "accept"; numconnections := 1; maxconnections := 0;
       peerconnections := 1; response_server_token := "9789091435706088" |}
  /\ activeCountFor (connections_after out) (makeConnectionID sessionObj) = 1
  /\ max_ws_per_ip rpc_options
     < activeCountFor (connections_after out) (makeConnectionID sessionObj)
  /\ sent out' = TooManyConnections 0 0.
Proof. vm_compute. repeat split. Qed.

(** ** The handshake: [last_update] *)

(** C10. An accepted handshake of an identity that has no array in the
    registry stores a connection whose [last_update] is a [Date] object;
    an accepted handshake of an identity that has an array appends a
    connection whose [last_update] is the number [Date.now()]. The
    connections of one identity are therefore not uniform in it. *)
Theorem last_update_representation (rpc_options : rpc_options_t)
    (random : string) (now : Z) (sessionObj : sessionObj_t)
    (connections : option (gmap string slot)) (r : responseObj_t) :
  sent (WSS_Handshake rpc_options random now sessionObj connections)
  = sendResult r ->
  let connectionID := makeConnectionID sessionObj in
  let after := connections_after
                 (WSS_Handshake rpc_options random now sessionObj connections) in
  (has_array connections connectionID = false ->
   exists c, slotFor after connectionID = Some (SArray [c])
             /\ connectionObj.last_update c = DateObject now)
  /\ (forall arr, slotFor connections connectionID = Some (SArray arr) ->
      exists c, slotFor after connectionID = Some (SArray (arr ++ [c]))
                /\ connectionObj.last_update c = DateNow now)
  /\ (forall ms ms', DateObject ms <> DateNow ms').
Proof.
  intros Hsent. cbv zeta.
  destruct (WSS_Handshake_accepted _ _ _ _ _ _ Hsent) as (c & E & Hc).
  unfold has_array. rewrite !Hc, E in *. clear E Hc connections.
  destruct (WSS_Handshake_accept_inv _ _ _ _ _ _ Hsent)
    as [[Hnew E] | (arr & Hk & Hlt & E)]; rewrite E; simpl;
    rewrite lookup_insert_eq.
  - unfold has_array, slotFor in Hnew. split; [| split].
    + intros _. eexists. split; reflexivity.
    + intros arr Hk. rewrite Hk in Hnew. discriminate.
    + discriminate.
  - rewrite Hk. split; [| split].
    + discriminate.
    + intros arr' [= <-]. eexists. split; reflexivity.
    + discriminate.
Qed.

Lemma last_update_representation_witness :
  let rpc_options := {| http_only_handshake := true; max_ws_per_ip := 3 |} in
  let first := WSS_Handshake rpc_options "9789091435706088" 1000
                 (http_session "10.0.0.1" "7060939278321507") None in
  let second := WSS_Handshake rpc_options "1234" 2000
                  (http_session "10.0.0.1" "5678") (connections_after first) in
  (exists c, slotFor (connections_after first) "IPv4:10.0.0.1"
             = Some (SArray [c])
             /\ connectionObj.last_update c = DateObject 1000)
  /\ (exists c, slotFor (connections_after second) "IPv4:10.0.0.1"
                = Some (SArray
                          ([connectionObj.make "7060939278321507" None
                              (DateObject 1000) "9789091435706088"] ++ [c]))
                /\ connectionObj.last_update c = DateNow 2000).
Proof.
  cbv zeta. split.
  - apply (proj1 (last_update_representation
                    {| http_only_handshake := true; max_ws_per_ip := 3 |}
                    "9789091435706088" 1000
                    (http_session "10.0.0.1" "7060939278321507") None
                    {| message := "accept"; numconnections := 1;
                       maxconnections := 3; peerconnections := 1;
                       response_server_token := "9789091435706088" |}
                    eq_refl)).
    reflexivity.
  - apply (proj1 (proj2 (last_update_representation
                    {| http_only_handshake := true; max_ws_per_ip := 3 |}
                    "1234" 2000 (http_session "10.0.0.1" "5678")
                    (connections_after
                       (WSS_Handshake
                          {| http_only_handshake := true; max_ws_per_ip := 3 |}
                          "9789091435706088" 1000
                          (http_session "10.0.0.1" "7060939278321507") None))
                    {| message := "accept"; numconnections := 2;
                       maxconnections := 3; peerconnections := 2;
                       response_server_token := "1234" |}
                    eq_refl))).
    reflexivity.
Defined.

(** ** The session validator *)

Lemma handshakeOK_loop_true (requestParams : requestParams_t)
    (arr : list connectionObj.t) :
  handshakeOK_loop requestParams arr = true ->
  exists c, c ∈ arr
            /\ connectionObj.user_token c = user_token requestParams
            /\ Some (connectionObj.server_token c) = server_token requestParams.
Proof.
  induction arr as [| c arr IH]; simpl; [discriminate |].
  destruct (String.eqb_spec (connectionObj.user_token c)
              (user_token requestParams)) as [Eu | Eu].
  - destruct (server_token requestParams) as [claimed |]; [| discriminate].
    destruct (String.eqb_spec (connectionObj.server_token c) claimed)
      as [Es | Es]; [| discriminate].
    intros _. exists c. split; [left |]. split; congruence.
  - intros H. destruct (IH H) as (c' & Hin & Hc').
    exists c'. split; [right |]; assumption.
Qed.

Lemma handshakeOK_loop_complete (requestParams : requestParams_t)
    (arr : list connectionObj.t) (c : connectionObj.t) :
  NoDup (connectionObj.user_token <$> arr) ->
  c ∈ arr ->
  connectionObj.user_token c = user_token requestParams ->
  Some (connectionObj.server_token c) = server_token requestParams ->
  handshakeOK_loop requestParams arr = true.
Proof.
  intros Hnd Hin Hu Hs.
  induction arr as [| c0 arr IH]; simpl; [inversion Hin |].
  rewrite fmap_cons in Hnd. apply NoDup_cons in Hnd as [Hfresh Hnd].
  apply elem_of_cons in Hin as [<- | Hin].
  - rewrite Hu, String.eqb_refl, <- Hs, String.eqb_refl. reflexivity.
  - destruct (String.eqb_spec (connectionObj.user_token c0)
                (user_token requestParams)) as [Eu | Eu].
    + contradiction Hfresh. rewrite Eu, <- Hu.
      apply list_elem_of_fmap. exists c. auto.
    + apply IH; assumption.
Qed.


(** The handshake maintains the invariant on user tokens, so every
    registry that handshakes build from a fresh server satisfies it. *)
Lemma unique_tokens_preserved (rpc_options : rpc_options_t) (random : string)
    (now : Z) (sessionObj : sessionObj_t)
    (connections : option (gmap string slot)) :
  unique_tokens connections ->
  unique_tokens
    (connections_after
       (WSS_Handshake rpc_options random now sessionObj connections)).
Proof.
  intros Hu. unfold WSS_Handshake.
  destruct (negb _ && _); [exact Hu |].
  assert (Hu' : unique_tokens
                  (Some match connections with Some c => c | None => ∅ end)).
  { destruct connections; [exact Hu |].
    intros k arr H. simpl in H. rewrite lookup_empty in H. discriminate. }
  clear Hu. revert Hu'.
  generalize (match connections with Some c => c | None => ∅ end).
  intros c Hu.
  destruct (scan_connections _ _ _) as [n |] eqn:Hscan; [| exact Hu].
  assert (Hfresh : forall k arr c',
             c !! k = Some (SArray arr) -> c' ∈ arr ->
             connectionObj.user_token c'
             <> user_token (params (requestObj sessionObj))).
  { intros k arr c' Hk Hin E.
    assert (scan_connections (user_token (params (requestObj sessionObj)))
              (map_to_list c) 0 = None) as E'
      by (apply scan_registry_None; exists k, arr, c'; auto).
    congruence. }
  assert (Hins : forall arr',
             NoDup (connectionObj.user_token <$> arr') ->
             unique_tokens
               (Some (<[makeConnectionID sessionObj := SArray arr']> c))).
  { intros arr' Hnd k arr H. unfold slotFor in H.
    destruct (decide (makeConnectionID sessionObj = k)) as [<- | Hne].
    - rewrite lookup_insert_eq in H. injection H as <-. exact Hnd.
    - rewrite lookup_insert_ne in H by exact Hne. apply (Hu k). exact H. }
  destruct (c !! makeConnectionID sessionObj) as [[| arr] |] eqn:Hid; simpl.
  - apply Hins. simpl. apply NoDup_singleton.
  - destruct (_ <=? _); [exact Hu |]. apply Hins.
    rewrite fmap_app. apply NoDup_app. split; [| split].
    + apply (Hu (makeConnectionID sessionObj)). exact Hid.
    + intros t Ht Ht'. simpl in Ht'. apply list_elem_of_singleton in Ht'.
      subst t. apply list_elem_of_fmap in Ht as (c' & E & Hin).
      apply (Hfresh _ _ c' Hid Hin). auto.
    + simpl. apply NoDup_singleton.
  - apply Hins. simpl. apply NoDup_singleton.
Qed.

Lemma unique_tokens_invariant (rpc_options : rpc_options_t)
    (calls : list handshake_call) :
  unique_tokens (handshakes rpc_options calls None).
Proof.
  assert (H : forall connections,
             unique_tokens connections ->
             unique_tokens (handshakes rpc_options calls connections)).
  { induction calls as [| call calls IH]; intros connections Hu; simpl.
    - exact Hu.
    - apply IH, unique_tokens_preserved, Hu. }
  apply H. intros k arr Hk. discriminate.
Qed.



(** Before the first handshake has created the registry, the validator
    throws. *)
Lemma handshakeOK_undefined_registry (sessionObj : sessionObj_t) :
  handshakeOK sessionObj None = TypeError.
Proof. reflexivity. Qed.


(** ** The request correlator *)

Section CorrelatorFacts.

Variable JSON_parse : string -> option rpc_object.

(** A message with another id is passed over by the loop. *)
Lemma await_reply_skip (requestID : string) (result : rpc_object)
    (m : MessageEvent) (next : rpc_object) (rest : list MessageEvent) :
  id result <> requestID ->
  JSON_parse (data m) = Some next ->
  await_reply JSON_parse requestID result (m :: rest)
  = await_reply JSON_parse requestID next rest.
Proof.
  intros Hne Hm. simpl.
  destruct (String.eqb_spec requestID (id result)) as [E | _];
    [congruence |].
  simpl. rewrite Hm. reflexivity.
Qed.

Lemma await_reply_match (requestID : string) (result : rpc_object)
    (rest : list MessageEvent) :
  id result = requestID ->
  await_reply JSON_parse requestID result rest = Resolved result rest.
Proof.
  intros <-. destruct rest; simpl; rewrite String.eqb_refl; reflexivity.
Qed.

Lemma await_reply_starved (requestID : string) (result : rpc_object) :
  id result <> requestID ->
  await_reply JSON_parse requestID result [] = Suspended.
Proof.
  intros Hne. simpl.
  destruct (String.eqb_spec requestID (id result)); [congruence | reflexivity].
Qed.

(** The call passes over one message with another id. *)
Lemma callContractAPI_skip (userToken serverToken APIFunc : string)
    (params : gmap string string) (random : string)
    (m : MessageEvent) (r : rpc_object) (rest : list MessageEvent) :
  JSON_parse (data m) = Some r ->
  id r <> "CPSC" +:+ random ->
  snd (callContractAPI JSON_parse userToken serverToken APIFunc params random
         (m :: rest))
  = snd (callContractAPI JSON_parse userToken serverToken APIFunc params random
           rest).
Proof.
  intros Hm Hne. unfold callContractAPI. cbv zeta.
  remember ("CPSC" +:+ random) as requestID eqn:Hrid. clear Hrid.
  cbn [snd RPC]. rewrite Hm. destruct rest as [| m' rest]; cbn [RPC].
  - apply await_reply_starved, Hne.
  - destruct (JSON_parse (data m')) as [r' |] eqn:Hm'.
    + apply await_reply_skip; assumption.
    + simpl. destruct (String.eqb_spec requestID (id r)); [congruence |].
      simpl. rewrite Hm'. reflexivity.
Qed.

(** C6. A call whose request id is [id rY], on an inbound stream of
    three messages with ids [id rX], [id rY], [id rZ] in that order
    where [id rX] is another id, passes over the first message, resolves
    with the parsed second message and leaves the third unread. In
    general messages with another id are passed over, one after the
    other, and the call is suspended again when no further message has
    arrived. (The request id is ["CPSC"] followed by random digits.) *)
Theorem correlator_matching (userToken serverToken APIFunc : string)
    (params : gmap string string) (random : string)
    (mX mY mZ : MessageEvent) (rX rY : rpc_object) :
  let requestID := "CPSC" +:+ random in
  let call := callContractAPI JSON_parse userToken serverToken APIFunc params
                random in
  JSON_parse (data mX) = Some rX -> id rX <> requestID ->
  JSON_parse (data mY) = Some rY -> id rY = requestID ->
  request_id (fst (call [mX; mY; mZ])) = requestID
  /\ snd (call [mX; mY; mZ]) = Resolved rY [mZ]
  /\ (forall skipped rest,
        Forall (fun m => exists r, JSON_parse (data m) = Some r
                                   /\ id r <> requestID) skipped ->
        snd (call (skipped ++ rest)) = snd (call rest))
  /\ (forall skipped,
        Forall (fun m => exists r, JSON_parse (data m) = Some r
                                   /\ id r <> requestID) skipped ->
        snd (call skipped) = Suspended).
Proof.
  cbv zeta. intros HX HneX HY HeqY.
  assert (Hskip : forall skipped rest,
             Forall (fun m => exists r, JSON_parse (data m) = Some r
                                        /\ id r <> "CPSC" +:+ random) skipped ->
             snd (callContractAPI JSON_parse userToken serverToken APIFunc
                    params random (skipped ++ rest))
             = snd (callContractAPI JSON_parse userToken serverToken APIFunc
                      params random rest)).
  { intros skipped rest Hall.
    induction Hall as [| m skipped (r & Hm & Hne) _ IH]; [reflexivity |].
    rewrite <- IH. apply (callContractAPI_skip _ _ _ _ _ m r); assumption. }
  split; [reflexivity |]. split; [| split].
  - rewrite (callContractAPI_skip _ _ _ _ _ mX rX) by assumption.
    unfold callContractAPI. cbn [snd RPC]. rewrite HY.
    apply await_reply_match, HeqY.
  - exact Hskip.
  - intros skipped Hall. rewrite <- (app_nil_r skipped).
    rewrite Hskip by exact Hall. reflexivity.
Qed.

End CorrelatorFacts.

Lemma correlator_matching_witness :
  snd (callContractAPI sample_parse "7060939278321507" "9789091435706088"
         "CPSC_Create" ∅ "2"
         [ {| data := "CPSC1 created" |}; {| data := "CPSC2 agreed" |};
           {| data := "CPSC3 stored" |} ])
  = Resolved {| id := "CPSC2"; body := body_result "agreed" |}
      [ {| data := "CPSC3 stored" |} ].
Proof.
  apply (proj1 (proj2 (correlator_matching sample_parse
                  "7060939278321507" "9789091435706088" "CPSC_Create" ∅ "2"
                  {| data := "CPSC1 created" |} {| data := "CPSC2 agreed" |}
                  {| data := "CPSC3 stored" |}
                  {| id := "CPSC1"; body := body_result "created" |}
                  {| id := "CPSC2"; body := body_result "agreed" |}
                  eq_refl ltac:(discriminate) eq_refl eq_refl))).
Defined.

(** * Further properties of the session endpoint *)

(** ** What a handshake does to the registry *)

Lemma connectionAt_slotFor (connections connections' : option (gmap string slot))
    (k : string) :
  slotFor connections k = slotFor connections' k ->
  forall i, connectionAt connections k i = connectionAt connections' k i.
Proof. intros E i. unfold connectionAt. rewrite E. reflexivity. Qed.

(** A handshake that is not accepted leaves every slot as it was. *)
Lemma WSS_Handshake_rejected_slots (rpc_options : rpc_options_t)
    (random : string) (now : Z) (sessionObj : sessionObj_t)
    (connections : option (gmap string slot)) :
  (forall r, sent (WSS_Handshake rpc_options random now sessionObj connections)
             <> sendResult r) ->
  forall k,
    slotFor (connections_after
               (WSS_Handshake rpc_options random now sessionObj connections)) k
    = slotFor connections k.
Proof.
  intros Hrej k. revert Hrej. unfold WSS_Handshake.
  destruct (negb _ && _); [reflexivity |].
  assert (E : slotFor (Some match connections with Some c => c | None => ∅ end) k
              = slotFor connections k).
  { destruct connections; [reflexivity |]. simpl. apply lookup_empty. }
  revert E. generalize (match connections with Some c => c | None => ∅ end).
  intros c E.
  destruct (scan_connections _ _ _); [| intros _; exact E].
  destruct (c !! makeConnectionID sessionObj) as [[| arr] |].
  - intros H. exfalso. eapply H. reflexivity.
  - destruct (_ <=? _); [intros _; exact E |].
    intros H. exfalso. eapply H. reflexivity.
  - intros H. exfalso. eapply H. reflexivity.
Qed.

(** An accepted handshake met the requested user token nowhere in the
    registry. *)
Lemma WSS_Handshake_accept_fresh (rpc_options : rpc_options_t)
    (random : string) (now : Z) (sessionObj : sessionObj_t)
    (connections : option (gmap string slot)) (r : responseObj_t) :
  sent (WSS_Handshake rpc_options random now sessionObj connections)
  = sendResult r ->
  forall k i c,
    connectionAt connections k i = Some c ->
    connectionObj.user_token c <> user_token (params (requestObj sessionObj)).
Proof.
  intros Hsent k i c Hc Etok.
  destruct connections as [conns |]; [| discriminate].
  unfold connectionAt, slotFor in Hc.
  destruct (conns !! k) as [[| arr] |] eqn:Hk; try discriminate.
  assert (Hscan : scan_connections (user_token (params (requestObj sessionObj)))
                    (map_to_list conns) 0 = None).
  { apply scan_registry_None. exists k, arr, c.
    split; [exact Hk |]. split; [| exact Etok].
    apply list_elem_of_lookup. exists i. exact Hc. }
  revert Hsent. unfold WSS_Handshake.
  destruct (negb _ && _); [discriminate |].
  rewrite Hscan. discriminate.
Qed.

(** The registry after an accepted handshake, element by element: one
    connection is new, at the end of the array of the requester. *)
Lemma WSS_Handshake_accept_connectionAt (rpc_options : rpc_options_t)
    (random : string) (now : Z) (sessionObj : sessionObj_t)
    (connections : option (gmap string slot)) (r : responseObj_t) :
  sent (WSS_Handshake rpc_options random now sessionObj connections)
  = sendResult r ->
  exists cnew,
    connectionObj.user_token cnew = user_token (params (requestObj sessionObj))
    /\ connectionObj.server_token cnew = response_server_token r
    /\ response_server_token r = random
    /\ connectionObj.socket cnew = None
    /\ forall k i,
         connectionAt
           (connections_after
              (WSS_Handshake rpc_options random now sessionObj connections)) k i
         = if decide (k = makeConnectionID sessionObj
                      /\ Z.of_nat i
                         = activeCountFor connections
                             (makeConnectionID sessionObj))
           then Some cnew
           else connectionAt connections k i.
Proof.
  intros Hsent.
  destruct (WSS_Handshake_accepted _ _ _ _ _ _ Hsent) as (c & E & Hc).
  assert (Hat : forall k i,
             connectionAt connections k i = connectionAt (Some c) k i)
    by (intros k i; apply connectionAt_slotFor, Hc).
  rewrite E in Hsent.
  enough (exists cnew,
    connectionObj.user_token cnew = user_token (params (requestObj sessionObj))
    /\ connectionObj.server_token cnew = response_server_token r
    /\ response_server_token r = random
    /\ connectionObj.socket cnew = None
    /\ forall k i,
         connectionAt
           (connections_after
              (WSS_Handshake rpc_options random now sessionObj (Some c))) k i
         = if decide (k = makeConnectionID sessionObj
                      /\ Z.of_nat i
                         = activeCountFor (Some c) (makeConnectionID sessionObj))
           then Some cnew
           else connectionAt (Some c) k i)
    as (cnew & H1 & H2 & H3 & H4 & H5).
  { exists cnew. repeat (split; [assumption |]). intros k i.
    rewrite E, H5, Hat. unfold activeCountFor. rewrite Hc. reflexivity. }
  clear E Hc Hat connections.
  destruct (WSS_Handshake_accept_inv _ _ _ _ _ _ Hsent)
    as [[Hnew E] | (arr & Hk & Hlt & E)];
    rewrite E in *; simpl in Hsent; injection Hsent as <-;
    [exists (connectionObj.make (user_token (params (requestObj sessionObj)))
               None (DateObject now) random)
    |exists (connectionObj.make (user_token (params (requestObj sessionObj)))
               None (DateNow now) random)];
    (split; [reflexivity |]); (split; [reflexivity |]);
    (split; [reflexivity |]); (split; [reflexivity |]);
    intros k i; unfold connectionAt, activeCountFor, slotFor;
    simpl connections_after; cbv iota beta.
  - unfold has_array, slotFor in Hnew.
    destruct (decide (k = makeConnectionID sessionObj)) as [-> | Hne].
    + rewrite lookup_insert_eq.
      destruct (c !! makeConnectionID sessionObj) as [[| arr] |];
        try discriminate; simpl;
        (destruct i as [| i]; simpl;
         [rewrite decide_True by (split; [reflexivity | lia]); reflexivity
         | rewrite decide_False by lia; reflexivity]).
    + rewrite lookup_insert_ne by congruence.
      rewrite decide_False by (intros [? _]; contradiction). reflexivity.
  - destruct (decide (k = makeConnectionID sessionObj)) as [-> | Hne].
    + rewrite lookup_insert_eq, Hk. simpl.
      destruct (decide (i = length arr)) as [-> | Hi].
      * rewrite decide_True by (split; [reflexivity | lia]).
        rewrite lookup_app_r by lia. rewrite Nat.sub_diag. reflexivity.
      * rewrite decide_False by lia.
        destruct (decide (i < length arr)%nat) as [Hlt' | Hge].
        -- apply lookup_app_l. exact Hlt'.
        -- rewrite !lookup_ge_None_2; [reflexivity | lia |].
           rewrite length_app. simpl. lia.
    + rewrite lookup_insert_ne by congruence.
      rewrite decide_False by (intros [? _]; contradiction). reflexivity.
Qed.

(** The count of the requester after an accepted handshake. *)
Lemma accept_counts_after (rpc_options : rpc_options_t)
    (random : string) (now : Z) (sessionObj : sessionObj_t)
    (connections : option (gmap string slot)) (r : responseObj_t) :
  sent (WSS_Handshake rpc_options random now sessionObj connections)
  = sendResult r ->
  totalCount (connections_after
                (WSS_Handshake rpc_options random now sessionObj connections))
  = totalCount connections + 1
  /\ activeCountFor
       (connections_after
          (WSS_Handshake rpc_options random now sessionObj connections))
       (makeConnectionID sessionObj)
     = activeCountFor connections (makeConnectionID sessionObj) + 1.
Proof.
  intros Hsent.
  destruct (WSS_Handshake_accepted _ _ _ _ _ _ Hsent) as (c & E & Hc).
  assert (Ht : totalCount connections = totalCount (Some c)).
  { destruct connections as [c' |].
    - f_equal. f_equal. apply map_eq. intros k. apply (Hc k).
    - assert (c = ∅) as ->
        by (apply map_eq; intros k; rewrite lookup_empty;
            symmetry; apply (Hc k)).
      simpl. rewrite map_to_list_empty. reflexivity. }
  unfold activeCountFor at 2. rewrite Ht, Hc, E. rewrite E in Hsent.
  clear E Hc Ht connections.
  destruct (WSS_Handshake_accept_inv _ _ _ _ _ _ Hsent)
    as [[Hnew E] | (arr & Hk & Hlt & E)]; rewrite E;
    unfold totalCount, activeCountFor, slotFor; simpl connections_after;
    cbv iota beta; rewrite count_items_insert, lookup_insert_eq;
    unfold activeCountFor, slotFor.
  - unfold has_array, slotFor in Hnew.
    destruct (c !! makeConnectionID sessionObj) as [[| arr] |];
      try discriminate; simpl; lia.
  - rewrite Hk. simpl. rewrite length_app. simpl. lia.
Qed.

(** The requester's slot after an accepted handshake. *)
Lemma handshake_slot_after (rpc_options : rpc_options_t)
    (random : string) (now : Z) (sessionObj : sessionObj_t)
    (connections : option (gmap string slot)) (r : responseObj_t) :
  sent (WSS_Handshake rpc_options random now sessionObj connections)
  = sendResult r ->
  exists (c : gmap string slot) arr cnew,
    connections_after
      (WSS_Handshake rpc_options random now sessionObj connections) = Some c
    /\ c !! makeConnectionID sessionObj = Some (SArray (arr ++ [cnew]))
    /\ connectionObj.user_token cnew
       = user_token (params (requestObj sessionObj))
    /\ connectionObj.server_token cnew = response_server_token r.
Proof.
  intros Hsent.
  destruct (WSS_Handshake_accepted _ _ _ _ _ _ Hsent) as (c & E & _).
  rewrite E in *.
  destruct (WSS_Handshake_accept_inv _ _ _ _ _ _ Hsent)
    as [[Hnew E'] | (arr & Hk & Hlt & E')];
    rewrite E' in *; simpl in Hsent; injection Hsent as <-;
    eexists; [exists [] | exists arr]; eexists;
    (split; [reflexivity |]); rewrite lookup_insert_eq;
    (split; [reflexivity |]); split; reflexivity.
Qed.

(** X1. No handshake, whatever its outcome, removes or changes a
    connection that is in the registry. *)
Theorem handshake_keeps_connections (rpc_options : rpc_options_t)
    (random : string) (now : Z) (sessionObj : sessionObj_t)
    (connections : option (gmap string slot))
    (k : string) (i : nat) (c : connectionObj.t) :
  connectionAt connections k i = Some c ->
  connectionAt
    (connections_after
       (WSS_Handshake rpc_options random now sessionObj connections)) k i
  = Some c.
Proof.
  intros Hc.
  destruct (sent (WSS_Handshake rpc_options random now sessionObj connections))
    as [code msg info | r] eqn:Hsent.
  - rewrite (connectionAt_slotFor _ connections); [exact Hc |].
    apply WSS_Handshake_rejected_slots. intros r. rewrite Hsent. discriminate.
  - destruct (WSS_Handshake_accept_connectionAt _ _ _ _ _ _ Hsent)
      as (cnew & _ & _ & _ & _ & Hat).
    rewrite Hat. destruct (decide _) as [[-> Hi] | _]; [| exact Hc].
    exfalso. unfold connectionAt, activeCountFor in *.
    destruct (slotFor connections (makeConnectionID sessionObj))
      as [[| arr] |]; try discriminate.
    apply lookup_lt_Some in Hc. simpl in Hi. lia.
Qed.

Lemma handshake_keeps_connections_witness :
  connectionAt
    (connections_after
       (WSS_Handshake {| http_only_handshake := true; max_ws_per_ip := 3 |}
          "9789091435706088" 0 (http_session "10.0.0.1" "7060939278321507")
          (Some {[ "IPv4:10.0.0.1" := SArray [pending "1111" "1"] ]})))
    "IPv4:10.0.0.1" 0
  = Some (pending "1111" "1").
Proof.
  apply (handshake_keeps_connections
           {| http_only_handshake := true; max_ws_per_ip := 3 |}
           "9789091435706088" 0 (http_session "10.0.0.1" "7060939278321507")
           (Some {[ "IPv4:10.0.0.1" := SArray [pending "1111" "1"] ]})
           "IPv4:10.0.0.1" 0 (pending "1111" "1")).
  reflexivity.
Defined.

(** X2. An accepted handshake adds exactly one connection: it is the
    new last element of the requester's array, carries the user token
    of the request and the server token returned in the response, and
    has no socket yet; every other element of the registry is as
    before. *)
Theorem handshake_accepted_adds_one (rpc_options : rpc_options_t)
    (random : string) (now : Z) (sessionObj : sessionObj_t)
    (connections : option (gmap string slot)) (r : responseObj_t) :
  sent (WSS_Handshake rpc_options random now sessionObj connections)
  = sendResult r ->
  let connectionID := makeConnectionID sessionObj in
  let after := connections_after
                 (WSS_Handshake rpc_options random now sessionObj connections) in
  exists cnew,
    connectionObj.user_token cnew = user_token (params (requestObj sessionObj))
    /\ connectionObj.server_token cnew = response_server_token r
    /\ connectionObj.socket cnew = None
    /\ connectionAt after connectionID
         (Z.to_nat (activeCountFor connections connectionID)) = Some cnew
    /\ activeCountFor after connectionID
       = activeCountFor connections connectionID + 1
    /\ forall k i,
         (k, i) <> (connectionID,
                    Z.to_nat (activeCountFor connections connectionID)) ->
         connectionAt after k i = connectionAt connections k i.
Proof.
  intros Hsent. cbv zeta.
  destruct (WSS_Handshake_accept_connectionAt _ _ _ _ _ _ Hsent)
    as (cnew & Hu & Hs & _ & Hsock & Hat).
  assert (Hpos : 0 <= activeCountFor connections (makeConnectionID sessionObj)).
  { unfold activeCountFor.
    destruct (slotFor _ _) as [[| arr] |]; simpl; lia. }
  exists cnew. repeat (split; [assumption |]). split; [| split].
  - rewrite Hat. rewrite decide_True; [reflexivity |].
    split; [reflexivity | lia].
  - destruct (accept_counts_after _ _ _ _ _ _ Hsent) as [E1 E2].
    exact E2.
  - intros k i Hne. rewrite Hat. rewrite decide_False; [reflexivity |].
    intros [-> Hi]. apply Hne. f_equal. lia.
Qed.

Lemma handshake_accepted_adds_one_witness :
  let out := WSS_Handshake sample_options "9789091435706088" 0
               (http_session "10.0.0.1" "7060939278321507") sample_registry in
  exists cnew,
    connectionObj.user_token cnew = "7060939278321507"%string
    /\ connectionObj.server_token cnew = "9789091435706088"%string
    /\ connectionObj.socket cnew = None
    /\ connectionAt (connections_after out) "IPv4:10.0.0.1" 1 = Some cnew
    /\ activeCountFor (connections_after out) "IPv4:10.0.0.1" = 2.
Proof.
  cbv zeta.
  destruct (handshake_accepted_adds_one sample_options "9789091435706088" 0
              (http_session "10.0.0.1" "7060939278321507") sample_registry
              {| message := "accept"; numconnections := 2; maxconnections := 3;
                 peerconnections := 2;
                 response_server_token := "9789091435706088" |} eq_refl)
    as (cnew & H1 & H2 & H3 & H4 & H5 & _).
  exists cnew. repeat split; assumption.
Defined.

(** X3. Every handshake changes the number of connections in the
    registry by one when it is accepted and by nothing when it is not;
    a handshake that is not accepted leaves every identity's slot as it
    was. *)
Theorem handshake_total_count (rpc_options : rpc_options_t)
    (random : string) (now : Z) (sessionObj : sessionObj_t)
    (connections : option (gmap string slot)) :
  let out := WSS_Handshake rpc_options random now sessionObj connections in
  match sent out with
  | sendResult _ =>
      totalCount (connections_after out) = totalCount connections + 1
  | sendError _ _ _ =>
      totalCount (connections_after out) = totalCount connections
      /\ forall k, slotFor (connections_after out) k = slotFor connections k
  end.
Proof.
  cbv zeta.
  destruct (sent (WSS_Handshake rpc_options random now sessionObj connections))
    as [code msg info | r] eqn:Hsent.
  - assert (Hslots : forall k,
               slotFor (connections_after
                          (WSS_Handshake rpc_options random now sessionObj
                             connections)) k
               = slotFor connections k).
    { apply WSS_Handshake_rejected_slots. intros r. rewrite Hsent.
      discriminate. }
    split; [| exact Hslots].
    revert Hslots.
    generalize (connections_after
                  (WSS_Handshake rpc_options random now sessionObj connections)).
    intros after Hslots. unfold totalCount.
    destruct after as [a |], connections as [c |].
    + f_equal. f_equal. apply map_eq. exact Hslots.
    + assert (a = ∅) as -> by (apply map_eq; intros k; rewrite lookup_empty;
                               apply (Hslots k)).
      rewrite map_to_list_empty. reflexivity.
    + assert (c = ∅) as -> by (apply map_eq; intros k; rewrite lookup_empty;
                               symmetry; apply (Hslots k)).
      rewrite map_to_list_empty. reflexivity.
    + reflexivity.
  - apply (accept_counts_after _ _ _ _ _ _ Hsent).
Qed.

(** ** Uniqueness of user tokens *)

Lemma tokens_unique_preserved (rpc_options : rpc_options_t) (random : string)
    (now : Z) (sessionObj : sessionObj_t)
    (connections : option (gmap string slot)) :
  tokens_unique connections ->
  tokens_unique
    (connections_after
       (WSS_Handshake rpc_options random now sessionObj connections)).
Proof.
  intros Hu.
  destruct (sent (WSS_Handshake rpc_options random now sessionObj connections))
    as [code msg info | r] eqn:Hsent.
  - intros k k' i j c c' Hc Hc'.
    rewrite (connectionAt_slotFor _ connections) in Hc, Hc'
      by (apply WSS_Handshake_rejected_slots; intros r; rewrite Hsent;
          discriminate).
    apply Hu; assumption.
  - destruct (WSS_Handshake_accept_connectionAt _ _ _ _ _ _ Hsent)
      as (cnew & Hnew & _ & _ & _ & Hat).
    pose proof (WSS_Handshake_accept_fresh _ _ _ _ _ _ Hsent) as Hfresh.
    intros k k' i j c c' Hc Hc' E. rewrite Hat in Hc, Hc'.
    destruct (decide (k = _ /\ _)) as [[-> Hi] | _];
      destruct (decide (k' = _ /\ _)) as [[-> Hj] | _].
    + split; [reflexivity | lia].
    + injection Hc as <-. exfalso. apply (Hfresh _ _ _ Hc'). congruence.
    + injection Hc' as <-. exfalso. apply (Hfresh _ _ _ Hc). congruence.
    + apply (Hu k k' i j c c'); assumption.
Qed.

(** X4. On a server that starts without registry, whatever handshake
    requests arrive, no two connections in the registry ever carry the
    same user token, be they of one identity or of two. *)
Theorem tokens_unique_invariant (rpc_options : rpc_options_t)
    (calls : list handshake_call) :
  tokens_unique (handshakes rpc_options calls None).
Proof.
  assert (H : forall connections,
             tokens_unique connections ->
             tokens_unique (handshakes rpc_options calls connections)).
  { induction calls as [| call calls IH]; intros connections Hu; simpl.
    - exact Hu.
    - apply IH, tokens_unique_preserved, Hu. }
  apply H. intros k k' i j c c' Hc. discriminate.
Qed.

Lemma tokens_unique_unique_tokens (connections : option (gmap string slot)) :
  tokens_unique connections -> unique_tokens connections.
Proof.
  intros Hu k arr Hk. apply NoDup_alt. intros i j t Hi Hj.
  rewrite list_lookup_fmap in Hi, Hj.
  destruct (arr !! i) as [c |] eqn:Hci; [| discriminate].
  destruct (arr !! j) as [c' |] eqn:Hcj; [| discriminate].
  simpl in Hi, Hj.
  apply (Hu k k i j c c'); unfold connectionAt; rewrite ?Hk; congruence.
Qed.

(** ** Handshake, then validation *)

(** X5. Round trip of the session tokens. After an accepted handshake
    on a registry with pairwise different user tokens per identity, a
    request from the same address that presents the user token of the
    handshake and the server token of the response is validated by
    [handshakeOK]; with the same user token and another server token
    it is refused. *)
Theorem handshake_then_handshakeOK (rpc_options : rpc_options_t)
    (random : string) (now : Z) (sessionObj later : sessionObj_t)
    (connections : option (gmap string slot)) (r : responseObj_t)
    (claimed : string) :
  unique_tokens connections ->
  sent (WSS_Handshake rpc_options random now sessionObj connections)
  = sendResult r ->
  makeConnectionID later = makeConnectionID sessionObj ->
  user_token (params (requestObj later))
  = user_token (params (requestObj sessionObj)) ->
  server_token (params (requestObj later)) = Some claimed ->
  handshakeOK later
    (connections_after
       (WSS_Handshake rpc_options random now sessionObj connections))
  = Normal (bool_decide (claimed = response_server_token r)).
Proof.
  intros Hu Hsent Hid Htok Hclaim.
  pose proof (unique_tokens_preserved rpc_options random now sessionObj
                connections Hu) as Hu'.
  destruct (handshake_slot_after _ _ _ _ _ _ Hsent)
    as (c & arr & cnew & Eafter & Hk & Hnu & Hns).
  rewrite Eafter in *. unfold handshakeOK. rewrite Hid, Hk.
  replace (length (arr ++ [cnew]) =? 0)%nat with false
    by (rewrite length_app, Nat.add_comm; reflexivity).
  f_equal.
  specialize (Hu' (makeConnectionID sessionObj) (arr ++ [cnew]) Hk).
  case_bool_decide as Hc.
  - apply (handshakeOK_loop_complete _ _ cnew); try assumption.
    + apply elem_of_app. right. left.
    + congruence.
    + congruence.
  - destruct (handshakeOK_loop (params (requestObj later)) (arr ++ [cnew]))
      eqn:Hloop; [| reflexivity].
    exfalso. apply handshakeOK_loop_true in Hloop as (c' & Hin & Hcu & Hcs).
    assert (c' = cnew) as ->.
    { apply list_elem_of_lookup in Hin as [i Hi].
      assert (Hj : (arr ++ [cnew]) !! length arr = Some cnew)
        by (rewrite lookup_app_r, Nat.sub_diag by lia; reflexivity).
      pose proof (proj1 (NoDup_alt _) Hu') as Hnd.
      assert (i = length arr).
      { apply (Hnd i (length arr) (connectionObj.user_token c')).
        - rewrite list_lookup_fmap, Hi. reflexivity.
        - rewrite list_lookup_fmap, Hj. simpl. congruence. }
      subst i. congruence. }
    apply Hc. congruence.
Qed.

Lemma handshake_then_handshakeOK_witness :
  handshakeOK (ws_session "10.0.0.1" "7060939278321507"
                 (Some "9789091435706088"))
    (connections_after
       (WSS_Handshake sample_options "9789091435706088" 0
          (http_session "10.0.0.1" "7060939278321507") None))
  = Normal true.
Proof.
  apply (handshake_then_handshakeOK sample_options "9789091435706088" 0
           (http_session "10.0.0.1" "7060939278321507")
           (ws_session "10.0.0.1" "7060939278321507" (Some "9789091435706088"))
           None
           {| message := "accept"; numconnections := 1; maxconnections := 3;
              peerconnections := 1;
              response_server_token := "9789091435706088" |}
           "9789091435706088").
  - intros k arr H. discriminate H.
  - reflexivity.
  - reflexivity.
  - reflexivity.
  - reflexivity.
Defined.


(** ** The registry object *)




(** ** The order of the checks *)







Lemma scan_array_from (token : string) (arr : list connectionObj.t) (n : Z) :
  scan_array token arr n
  = match scan_array token arr 0 with
    | None => None
    | Some m => Some (n + m)
    end.
Proof.
  revert n. induction arr as [| c arr IH]; intros n; simpl.
  - f_equal. lia.
  - destruct (String.eqb _ _); [reflexivity |].
    rewrite (IH (n + 1)), (IH (0 + 1)).
    destruct (scan_array token arr 0); [f_equal; lia | reflexivity].
Qed.

(** X10. The duplicate scan gives the same answer, rejection or count,
    in whatever order the identities of the registry are visited, from
    whatever count it starts. *)
Theorem duplicate_scan_order (token : string)
    (items items' : list (string * slot)) (n : Z) :
  items ≡ₚ items' ->
  scan_connections token items n = scan_connections token items' n.
Proof.
  intros Hp. revert n.
  induction Hp as [| [k s] l l' _ IH | [k s] [k' s'] l | l l' l'' _ IH _ IH'];
    intros n; simpl.
  - reflexivity.
  - destruct s as [| arr]; [apply IH |].
    destruct (scan_array token arr n); [apply IH | reflexivity].
  - destruct s as [| arr], s' as [| arr']; try reflexivity.
    rewrite (scan_array_from token arr' n), (scan_array_from token arr n).
    destruct (scan_array token arr' 0) as [m' |] eqn:E',
             (scan_array token arr 0) as [m |] eqn:E;
      rewrite ?(scan_array_from token arr (n + m')),
              ?(scan_array_from token arr' (n + m)), ?E, ?E';
      try reflexivity.
    f_equal. lia.
  - rewrite IH. apply IH'.
Qed.

Lemma duplicate_scan_order_witness :
  scan_connections "2222"
    [("IPv4:10.0.0.1", SArray [pending "1111" "1"]);
     ("IPv4:10.0.0.2", SArray [pending "2222" "2"])] 0
  = scan_connections "2222"
      [("IPv4:10.0.0.2", SArray [pending "2222" "2"]);
       ("IPv4:10.0.0.1", SArray [pending "1111" "1"])] 0.
Proof.
  apply (duplicate_scan_order "2222"
           [("IPv4:10.0.0.1", SArray [pending "1111" "1"]);
            ("IPv4:10.0.0.2", SArray [pending "2222" "2"])]
           [("IPv4:10.0.0.2", SArray [pending "2222" "2"]);
            ("IPv4:10.0.0.1", SArray [pending "1111" "1"])] 0).
  apply perm_swap.
Defined.

(** X11. With a limit of at least one, from a registry in which no
    identity has more than [max_ws_per_ip] connections (so from a
    server that starts without registry), whatever handshake requests
    arrive, no identity ever has more than [max_ws_per_ip]
    connections. *)
Theorem capacity_never_exceeded (rpc_options : rpc_options_t)
    (calls : list handshake_call)
    (connections : option (gmap string slot)) :
  1 <= max_ws_per_ip rpc_options ->
  (forall k, activeCountFor connections k <= max_ws_per_ip rpc_options) ->
  forall k,
    activeCountFor (handshakes rpc_options calls connections) k
    <= max_ws_per_ip rpc_options.
Proof.
  intros Hmax. revert connections.
  induction calls as [| call calls IH]; intros connections Hk k; simpl.
  - apply Hk.
  - apply IH. intros k'. apply capacity_preserved; [exact Hmax | apply Hk].
Qed.

Lemma capacity_never_exceeded_witness :
  activeCountFor (handshakes sample_options sample_calls None) "IPv4:10.0.0.1"
  <= 3.
Proof.
  apply (capacity_never_exceeded sample_options sample_calls None).
  - simpl. lia.
  - intros k. unfold activeCountFor. simpl. lia.
Defined.

(** Three handshakes of one address are accepted under a limit of
    three, the fourth is answered [TooManyConnections] with 3 of 3. *)
Example fourth_handshake_rejected :
  activeCountFor (handshakes sample_options (take 3 sample_calls) None)
    "IPv4:10.0.0.1" = 3
  /\ sent (WSS_Handshake sample_options "94444" 0
             (http_session "10.0.0.1" "4444")
             (handshakes sample_options (take 3 sample_calls) None))
     = TooManyConnections 3 3
  /\ handshakes sample_options sample_calls None
     = handshakes sample_options (take 3 sample_calls) None.
Proof. vm_compute. repeat split. Qed.

(** ** Connection identifiers *)

(** X12. The connection identifier depends on the family and the
    address of the core socket only (not on the transport, the endpoint
    or the request), and two sockets whose family names contain no
    [":"] get the same identifier only if they agree in family and in
    address. *)
Theorem makeConnectionID_inj (s1 s2 : sessionObj_t) :
  has_colon (remoteFamily (core_socket s1)) = false ->
  has_colon (remoteFamily (core_socket s2)) = false ->
  (makeConnectionID s1 = makeConnectionID s2
   <-> remoteFamily (core_socket s1) = remoteFamily (core_socket s2)
       /\ remoteAddress (core_socket s1) = remoteAddress (core_socket s2)).
Proof.
  intros H1 H2. unfold makeConnectionID. fold (core_socket s1) (core_socket s2).
  split.
  - intros E. apply message_split in E; assumption.
  - intros [-> ->]. reflexivity.
Qed.

Lemma makeConnectionID_inj_witness :
  makeConnectionID (http_session "10.0.0.1" "1111")
  = makeConnectionID (ws_session "10.0.0.1" "2222" (Some "9"))
  /\ makeConnectionID (http_session "10.0.0.1" "1111")
     <> makeConnectionID (http_session "10.0.0.2" "1111").
Proof.
  split.
  - apply (proj2 (makeConnectionID_inj (http_session "10.0.0.1" "1111")
                    (ws_session "10.0.0.1" "2222" (Some "9"))
                    eq_refl eq_refl)).
    split; reflexivity.
  - intros E.
    apply (proj1 (makeConnectionID_inj (http_session "10.0.0.1" "1111")
                    (http_session "10.0.0.2" "1111") eq_refl eq_refl)) in E.
    destruct E as [_ E]. discriminate E.
Defined.

(** ** Private identifiers *)

(** X13. [makePrivateID] returns [null] exactly when an argument is
    not a string or is the empty string; two non-empty strings always
    get a digest. *)
Theorem makePrivateID_null_iff (server_token user_token : jsval) :
  makePrivateID server_token user_token = JNull
  <-> typeof server_token <> "string"%string \/ server_token = JString ""
      \/ typeof user_token <> "string"%string \/ user_token = JString "".
Proof.
  split.
  - unfold makePrivateID.
    destruct server_token as [| | ? | ? | s |];
      try (intros _; left; discriminate).
    destruct user_token as [| | ? | ? | u |];
      try (intros _; right; right; left; discriminate).
    simpl. destruct s as [| a s]; [intros _; right; left; reflexivity |].
    destruct u as [| b u]; [intros _; right; right; right; reflexivity |].
    discriminate.
  - unfold makePrivateID.
    destruct server_token as [| | ? | ? | s |]; try reflexivity;
      destruct user_token as [| | ? | ? | u |]; try reflexivity.
    simpl. intros [H | [H | [H | H]]].
    + contradiction H; reflexivity.
    + injection H as ->. reflexivity.
    + contradiction H; reflexivity.
    + injection H as ->. simpl.
      destruct (String.length s =? 0)%nat; reflexivity.
Qed.

Lemma length_string_of_list_ascii (l : list ascii) :
  String.length (string_of_list_ascii l) = length l.
Proof. induction l as [| a l IH]; simpl; [reflexivity | rewrite IH; reflexivity]. Qed.

Lemma hex_digit_is_hex (d : Z) :
  0 <= d < 16 -> is_hex_char (SHA256.hex_digit d) = true.
Proof.
  intros H.
  assert (E : d = 0 \/ d = 1 \/ d = 2 \/ d = 3 \/ d = 4 \/ d = 5 \/ d = 6
              \/ d = 7 \/ d = 8 \/ d = 9 \/ d = 10 \/ d = 11 \/ d = 12
              \/ d = 13 \/ d = 14 \/ d = 15) by lia.
  repeat (destruct E as [-> | E]; [reflexivity |]). subst d. reflexivity.
Qed.

Lemma hex_word_shape (x : Z) :
  length (SHA256.hex_word x) = 8%nat
  /\ Forall (fun c => is_hex_char c = true) (SHA256.hex_word x).
Proof.
  unfold SHA256.hex_word. split.
  - rewrite length_map. reflexivity.
  - apply Forall_map. apply Forall_forall. intros i _.
    apply hex_digit_is_hex. apply Z.mod_pos_bound. lia.
Qed.

Lemma hex_shape (s : string) :
  String.length (SHA256.hex s) = 64%nat
  /\ Forall (fun c => is_hex_char c = true)
       (list_ascii_of_string (SHA256.hex s)).
Proof.
  unfold SHA256.hex, SHA256.digest_words.
  rewrite length_string_of_list_ascii, list_ascii_of_string_of_list_ascii.
  cbv zeta. cbn [map concat].
  split.
  - rewrite !length_app. rewrite !(proj1 (hex_word_shape _)). reflexivity.
  - repeat (apply Forall_app; split; [apply hex_word_shape |]).
    constructor.
Qed.

(** X14. Whatever the arguments, the result of [makePrivateID] is
    [null] or a string of 64 characters, each of them a decimal digit
    or a letter from [a] to [f]. *)
Theorem makePrivateID_format (server_token user_token : jsval) :
  makePrivateID server_token user_token = JNull
  \/ exists h,
       makePrivateID server_token user_token = JString h
       /\ String.length h = 64%nat
       /\ Forall (fun c => is_hex_char c = true) (list_ascii_of_string h).
Proof.
  destruct (makePrivateID server_token user_token) as [| | ? | ? | h |] eqn:E;
    try (left; reflexivity);
    try (exfalso; revert E; unfold makePrivateID;
         destruct server_token as [| | ? | ? | s |]; try discriminate;
         destruct user_token as [| | ? | ? | u |]; try discriminate;
         simpl; destruct (String.length s =? 0)%nat; try discriminate;
         destruct (String.length u =? 0)%nat; discriminate).
  right. exists h. split; [reflexivity |].
  apply makePrivateID_string_inv in E as (s & u & _ & _ & _ & _ & ->).
  apply hex_shape.
Qed.

(** X15. When the server tokens contain no [":"], the hashed message
    determines the pair of tokens: two pairs with the same message are
    the same pair. *)
Theorem privateIDMessage_inj (s u s' u' : string) :
  has_colon s = false -> has_colon s' = false ->
  privateIDMessage s u = privateIDMessage s' u' ->
  s = s' /\ u = u'.
Proof.
  intros Hs Hs' E. unfold privateIDMessage in E.
  apply message_split in E; assumption.
Qed.

Lemma privateIDMessage_inj_witness :
  "9789091435706088"%string = "9789091435706088"%string
  /\ "a:b"%string = "a:b"%string.
Proof.
  apply (privateIDMessage_inj "9789091435706088" "a:b"
           "9789091435706088" "a:b"); reflexivity.
Defined.

(** ** [allSessions] *)

Lemma collect_array_filter (activeOnly : bool) (arr acc : list connectionObj.t) :
  collect_array activeOnly arr acc
  = acc ++ List.filter (listed (Some activeOnly)) arr.
Proof.
  revert acc. induction arr as [| c arr IH]; intros acc; simpl.
  - rewrite app_nil_r. reflexivity.
  - rewrite IH. destruct activeOnly; simpl.
    + destruct (connectionObj.socket c); simpl;
        [rewrite <- app_assoc |]; reflexivity.
    + rewrite <- app_assoc. reflexivity.
Qed.

Lemma elem_of_List_filter {A : Type} (f : A -> bool) (l : list A) (x : A) :
  x ∈ List.filter f l <-> x ∈ l /\ f x = true.
Proof. rewrite !list_elem_of_In. apply filter_In. Qed.

Lemma collect_connections_throws (activeOnly : bool)
    (items : list (string * slot)) (acc : list connectionObj.t) :
  collect_connections activeOnly items acc = TypeError
  <-> exists k, (k, SNull) ∈ items.
Proof.
  revert acc. induction items as [| [k s] items IH]; intros acc; simpl.
  - split; [discriminate |]. intros [k H]. inversion H.
  - destruct s as [| arr].
    + split; [| reflexivity]. intros _. exists k. left.
    + rewrite IH. split; intros [k' H]; exists k'.
      * right. exact H.
      * apply elem_of_cons in H as [[=] | H]. exact H.
Qed.

Lemma collect_connections_elem (activeOnly : bool)
    (items : list (string * slot)) (acc l : list connectionObj.t) :
  collect_connections activeOnly items acc = Normal l ->
  forall x, x ∈ l
            <-> x ∈ acc
                \/ exists k arr, (k, SArray arr) ∈ items /\ x ∈ arr
                                  /\ listed (Some activeOnly) x = true.
Proof.
  revert acc. induction items as [| [k s] items IH]; intros acc; simpl.
  - intros [= <-] x. split; [auto |].
    intros [H | (k & arr & H & _)]; [exact H | inversion H].
  - destruct s as [| arr]; [discriminate |].
    intros H x. rewrite (IH _ H x), collect_array_filter, elem_of_app.
    rewrite elem_of_List_filter.
    split.
    + intros [[Hx | [Hx Hl]] | (k' & arr' & Hin & Hx)].
      * left. exact Hx.
      * right. exists k, arr. split; [left | auto].
      * right. exists k', arr'. split; [right |]; assumption.
    + intros [Hx | (k' & arr' & Hin & Hx & Hl)].
      * left. left. exact Hx.
      * apply elem_of_cons in Hin as [[= -> ->] | Hin].
        -- left. right. auto.
        -- right. exists k', arr'. auto.
Qed.

Lemma collect_connections_length (items : list (string * slot))
    (acc l : list connectionObj.t) :
  collect_connections false items acc = Normal l ->
  Z.of_nat (length l) = Z.of_nat (length acc) + count_items items.
Proof.
  revert acc. induction items as [| [k s] items IH]; intros acc; simpl.
  - intros [= <-]. unfold count_items. simpl. lia.
  - destruct s as [| arr]; [discriminate |].
    intros H. apply IH in H. rewrite collect_array_filter in H.
    rewrite length_app in H.
    replace (List.filter (listed (Some false)) arr) with arr in H
      by (clear; induction arr as [| c arr IH]; simpl; congruence).
    unfold count_items in *. simpl. lia.
Qed.

(** X16. [allSessions] returns the empty array while the registry is
    undefined, and on a defined registry it throws a [TypeError]
    exactly when some identity's slot is [null] (a slot that
    [WSS_Handshake] and [handshakeOK] both accept). *)
Theorem allSessions_throws_iff (activeOnly : option bool)
    (connections : option (gmap string slot)) :
  allSessions activeOnly None = Normal []
  /\ (allSessions activeOnly connections = TypeError
      <-> exists k, slotFor connections k = Some SNull).
Proof.
  split; [reflexivity |].
  unfold allSessions. destruct connections as [c |].
  - rewrite collect_connections_throws. unfold slotFor.
    split; intros [k H]; exists k; apply elem_of_map_to_list; exact H.
  - split; [discriminate | intros [k H]; discriminate].
Qed.

Lemma allSessions_elem (activeOnly : option bool)
    (connections : option (gmap string slot)) (l : list connectionObj.t) :
  allSessions activeOnly connections = Normal l ->
  forall x,
    x ∈ l <-> (exists k i, connectionAt connections k i = Some x)
              /\ listed activeOnly x = true.
Proof.
  unfold allSessions. intros H x. destruct connections as [c |].
  - rewrite (collect_connections_elem _ _ _ _ H x).
    assert (El : listed (Some match activeOnly with
                              | Some b => b
                              | None => true
                              end) x = listed activeOnly x)
      by (destruct activeOnly as [[|] |]; reflexivity).
    rewrite El. unfold connectionAt, slotFor. split.
    + intros [Hx | (k & arr & Hin & Hx & Hl)]; [inversion Hx |].
      apply elem_of_map_to_list in Hin.
      apply list_elem_of_lookup in Hx as [i Hi].
      split; [| exact Hl]. exists k, i. rewrite Hin. exact Hi.
    + intros [(k & i & Hx) Hl]. right.
      destruct (c !! k) as [[| arr] |] eqn:Hk; try discriminate.
      exists k, arr. split; [apply elem_of_map_to_list; exact Hk |].
      split; [| exact Hl]. apply list_elem_of_lookup. exists i. exact Hx.
  - injection H as <-. split; [intros Hx; inversion Hx |].
    intros [(k & i & Hx) _]. discriminate.
Qed.

(** X17. When [allSessions] returns, the array holds exactly the
    connections of the registry that it is asked for: with
    [activeOnly] false every connection of every identity, otherwise
    (also by default) those whose socket is not [null]. *)
Theorem allSessions_elements (activeOnly : option bool)
    (connections : option (gmap string slot)) (l : list connectionObj.t) :
  allSessions activeOnly connections = Normal l ->
  forall x,
    x ∈ l <-> (exists k i, connectionAt connections k i = Some x)
              /\ listed activeOnly x = true.
Proof. apply allSessions_elem. Qed.

Lemma allSessions_elements_witness :
  (connected "2222" "2" ∈ [connected "2222" "2"]
   <-> (exists k i, connectionAt sample_mixed_registry k i
                    = Some (connected "2222" "2"))
       /\ listed None (connected "2222" "2") = true)
  /\ (pending "1111" "1" ∈ [connected "2222" "2"]
      <-> (exists k i, connectionAt sample_mixed_registry k i
                       = Some (pending "1111" "1"))
          /\ listed None (pending "1111" "1") = true).
Proof.
  split.
  - apply (allSessions_elements None sample_mixed_registry
             [connected "2222" "2"] eq_refl (connected "2222" "2")).
  - apply (allSessions_elements None sample_mixed_registry
             [connected "2222" "2"] eq_refl (pending "1111" "1")).
Defined.

(** X18. With [activeOnly] false, the array that [allSessions] returns
    has as many elements as the registry has connections. *)
Theorem allSessions_length (connections : option (gmap string slot))
    (l : list connectionObj.t) :
  allSessions (Some false) connections = Normal l ->
  Z.of_nat (length l) = totalCount connections.
Proof.
  unfold allSessions, totalCount. destruct connections as [c |].
  - intros H. apply collect_connections_length in H. simpl in H. lia.
  - intros [= <-]. reflexivity.
Qed.

Lemma allSessions_length_witness :
  Z.of_nat (length [pending "1111" "1"; connected "2222" "2"])
  = totalCount sample_mixed_registry.
Proof.
  apply (allSessions_length sample_mixed_registry
           [pending "1111" "1"; connected "2222" "2"]).
  reflexivity.
Defined.

Lemma WSS_Handshake_accept_other_slots (rpc_options : rpc_options_t)
    (random : string) (now : Z) (sessionObj : sessionObj_t)
    (connections : option (gmap string slot)) (r : responseObj_t) :
  sent (WSS_Handshake rpc_options random now sessionObj connections)
  = sendResult r ->
  forall k,
    k <> makeConnectionID sessionObj ->
    slotFor (connections_after
               (WSS_Handshake rpc_options random now sessionObj connections)) k
    = slotFor connections k.
Proof.
  intros Hsent k Hne.
  destruct (WSS_Handshake_accepted _ _ _ _ _ _ Hsent) as (c & E & Hc).
  rewrite Hc, E. rewrite E in Hsent.
  destruct (WSS_Handshake_accept_inv _ _ _ _ _ _ Hsent)
    as [[_ E'] | (arr & _ & _ & E')]; rewrite E'; simpl;
    apply lookup_insert_ne; congruence.
Qed.

Lemma all_pending_preserved (rpc_options : rpc_options_t) (random : string)
    (now : Z) (sessionObj : sessionObj_t)
    (connections : option (gmap string slot)) :
  all_pending connections ->
  all_pending
    (connections_after
       (WSS_Handshake rpc_options random now sessionObj connections)).
Proof.
  intros [Hnull Hsock].
  destruct (sent (WSS_Handshake rpc_options random now sessionObj connections))
    as [code msg info | r] eqn:Hsent.
  - assert (Hslots : forall k,
               slotFor (connections_after
                          (WSS_Handshake rpc_options random now sessionObj
                             connections)) k
               = slotFor connections k)
      by (apply WSS_Handshake_rejected_slots; intros r; rewrite Hsent;
          discriminate).
    split.
    + intros k. rewrite Hslots. apply Hnull.
    + intros k i c. rewrite (connectionAt_slotFor _ connections k (Hslots k)).
      apply Hsock.
  - split.
    + intros k.
      destruct (decide (k = makeConnectionID sessionObj)) as [-> | Hne].
      * destruct (handshake_slot_after _ _ _ _ _ _ Hsent)
          as (c & arr & cnew & -> & Hk & _).
        simpl. rewrite Hk. discriminate.
      * rewrite (WSS_Handshake_accept_other_slots _ _ _ _ _ _ Hsent k Hne).
        apply Hnull.
    + destruct (WSS_Handshake_accept_connectionAt _ _ _ _ _ _ Hsent)
        as (cnew & _ & _ & _ & Hnone & Hat).
      intros k i c. rewrite Hat. destruct (decide _).
      * intros [= <-]. exact Hnone.
      * apply Hsock.
Qed.

Lemma all_pending_handshakes (rpc_options : rpc_options_t)
    (calls : list handshake_call) :
  all_pending (handshakes rpc_options calls None).
Proof.
  assert (H : forall connections,
             all_pending connections ->
             all_pending (handshakes rpc_options calls connections)).
  { induction calls as [| call calls IH]; intros connections Hp; simpl.
    - exact Hp.
    - apply IH, all_pending_preserved, Hp. }
  apply H. split; intros; discriminate.
Qed.

(** X19. Handshakes alone make no session active. On a server that
    starts without registry, after any handshake requests,
    [allSessions] does not throw, returns the empty array by default
    and with [activeOnly] true, and returns with [activeOnly] false an
    array of as many elements as the registry has connections. *)
Theorem allSessions_after_handshakes (rpc_options : rpc_options_t)
    (calls : list handshake_call) :
  let connections := handshakes rpc_options calls None in
  allSessions None connections = Normal []
  /\ allSessions (Some true) connections = Normal []
  /\ exists l, allSessions (Some false) connections = Normal l
               /\ Z.of_nat (length l) = totalCount connections.
Proof.
  cbv zeta.
  destruct (all_pending_handshakes rpc_options calls) as [Hnull Hsock].
  assert (Hret : forall activeOnly,
             exists l, allSessions activeOnly
                         (handshakes rpc_options calls None) = Normal l).
  { intros activeOnly.
    destruct (allSessions activeOnly (handshakes rpc_options calls None))
      as [l |] eqn:E; [exists l; reflexivity |].
    exfalso. unfold allSessions in E.
    destruct (handshakes rpc_options calls None) as [c |]; [| discriminate].
    apply collect_connections_throws in E as [k Hk].
    apply elem_of_map_to_list in Hk. exact (Hnull k Hk). }
  assert (Hempty : forall activeOnly,
             activeOnly <> Some false ->
             allSessions activeOnly (handshakes rpc_options calls None)
             = Normal []).
  { intros activeOnly Ha. destruct (Hret activeOnly) as [l E]. rewrite E.
    destruct l as [| x l]; [reflexivity |]. exfalso.
    assert (Hx : x ∈ x :: l) by left.
    apply (allSessions_elem _ _ _ E) in Hx as [(k & i & Hx) Hl].
    apply Hsock in Hx. unfold listed in Hl. rewrite Hx in Hl.
    destruct activeOnly as [[|] |]; try discriminate. contradiction. }
  split; [apply Hempty; discriminate |].
  split; [apply Hempty; discriminate |].
  destruct (Hret (Some false)) as [l E]. exists l. split; [exact E |].
  unfold allSessions, totalCount in *.
  destruct (handshakes rpc_options calls None) as [c |].
  - apply collect_connections_length in E. simpl in E. lia.
  - injection E as <-. reflexivity.
Qed.

(** * Further properties of the request correlator *)

Section CorrelatorOutcomes.

Variable JSON_parse : string -> option rpc_object.
Variables userToken serverToken APIFunc : string.
Variable params : gmap string string.
Variable random : string.

Let call := callContractAPI JSON_parse userToken serverToken APIFunc params
              random.
Let requestID := ("CPSC" +:+ random)%string.

(** The call, one inbound message at a time. *)
Lemma callContractAPI_cons (m : MessageEvent) (rest : list MessageEvent) :
  snd (call (m :: rest))
  = match JSON_parse (data m) with
    | None => Rejected
    | Some r =>
        if String.eqb requestID (id r) then Resolved r rest
        else snd (call rest)
    end.
Proof.
  destruct (JSON_parse (data m)) as [r |] eqn:Hm.
  - destruct (String.eqb_spec requestID (id r)) as [E | Hne].
    + unfold call, callContractAPI. cbn [snd RPC]. rewrite Hm.
      apply await_reply_match. symmetry. exact E.
    + apply (callContractAPI_skip _ _ _ _ _ _ m r); [exact Hm |].
      intros E. apply Hne. symmetry. exact E.
  - unfold call, callContractAPI. cbn [snd RPC]. rewrite Hm. reflexivity.
Qed.

Lemma callContractAPI_nil : snd (call []) = Suspended.
Proof. reflexivity. Qed.

Lemma foreign_reply_cons_inv (m : MessageEvent) :
  foreign_reply JSON_parse requestID m ->
  exists r, JSON_parse (data m) = Some r
            /\ String.eqb requestID (id r) = false.
Proof.
  intros (r & Hm & Hne). exists r. split; [exact Hm |].
  apply String.eqb_neq. intros E. apply Hne. symmetry. exact E.
Qed.

(** X20. The request that the call sends carries the method, an id
    made of ["CPSC"] and the random digits, and the parameters of the
    caller to which the session tokens are added: [user_token] and
    [server_token] are always those of the session, also when the
    caller's parameters have entries of these names. *)
Theorem callContractAPI_request (inbound : list MessageEvent) :
  let request := fst (call inbound) in
  request_method request = APIFunc
  /\ request_id request = requestID
  /\ request_params request !! "user_token"%string = Some userToken
  /\ request_params request !! "server_token"%string = Some serverToken
  /\ forall k : string,
       k <> "user_token"%string -> k <> "server_token"%string ->
       request_params request !! k = params !! k.
Proof.
  cbv zeta. unfold call, callContractAPI. simpl.
  split; [reflexivity |]. split; [reflexivity |]. split; [| split].
  - rewrite lookup_insert_ne by discriminate. apply lookup_insert_eq.
  - apply lookup_insert_eq.
  - intros k Hu Hs. rewrite !lookup_insert_ne by congruence. reflexivity.
Qed.

(** X21. The call resolves exactly when the inbound messages are some
    messages with other ids and then a message with the awaited id; it
    resolves with that message, parsed, and leaves what follows it
    unread. It never resolves with a response of another id. *)
Theorem callContractAPI_resolved_iff (inbound rest : list MessageEvent)
    (r : rpc_object) :
  snd (call inbound) = Resolved r rest
  <-> exists skipped m,
        inbound = skipped ++ m :: rest
        /\ Forall (foreign_reply JSON_parse requestID) skipped
        /\ JSON_parse (data m) = Some r
        /\ id r = requestID.
Proof.
  induction inbound as [| m0 inbound IH].
  - rewrite callContractAPI_nil. split; [discriminate |].
    intros (skipped & m & E & _). destruct skipped; discriminate.
  - rewrite callContractAPI_cons.
    destruct (JSON_parse (data m0)) as [r0 |] eqn:Hm0.
    + destruct (String.eqb_spec requestID (id r0)) as [E0 | Hne0].
      * split.
        -- intros [= -> ->]. exists [], m0. auto.
        -- intros (skipped & m & E & Hsk & Hm & Hid).
           destruct skipped as [| s skipped]; injection E as -> E.
           ++ subst rest. congruence.
           ++ apply Forall_cons in Hsk as [(r' & Hr' & Hne') _].
              congruence.
      * rewrite IH. split.
        -- intros (skipped & m & -> & Hsk & Hm & Hid).
           exists (m0 :: skipped), m. repeat split; try assumption.
           constructor; [| exact Hsk]. exists r0. split; [exact Hm0 |].
           congruence.
        -- intros (skipped & m & E & Hsk & Hm & Hid).
           destruct skipped as [| s skipped]; injection E as -> E.
           ++ congruence.
           ++ apply Forall_cons in Hsk as [_ Hsk].
              exists skipped, m. auto.
    + split; [discriminate |].
      intros (skipped & m & E & Hsk & Hm & Hid).
      destruct skipped as [| s skipped]; injection E as -> E.
      * congruence.
      * apply Forall_cons in Hsk as [(r' & Hr' & _) _]. congruence.
Qed.

(** X22. The call is rejected exactly when, before any message with
    the awaited id, a message arrives that [JSON.parse] does not
    accept. *)
Theorem callContractAPI_rejected_iff (inbound : list MessageEvent) :
  snd (call inbound) = Rejected
  <-> exists skipped m rest,
        inbound = skipped ++ m :: rest
        /\ Forall (foreign_reply JSON_parse requestID) skipped
        /\ JSON_parse (data m) = None.
Proof.
  induction inbound as [| m0 inbound IH].
  - rewrite callContractAPI_nil. split; [discriminate |].
    intros (skipped & m & rest & E & _). destruct skipped; discriminate.
  - rewrite callContractAPI_cons.
    destruct (JSON_parse (data m0)) as [r0 |] eqn:Hm0.
    + destruct (String.eqb_spec requestID (id r0)) as [E0 | Hne0].
      * split; [discriminate |].
        intros (skipped & m & rest & E & Hsk & Hm).
        destruct skipped as [| s skipped]; injection E as -> E.
        -- congruence.
        -- apply Forall_cons in Hsk as [(r' & Hr' & Hne') _]. congruence.
      * rewrite IH. split.
        -- intros (skipped & m & rest & -> & Hsk & Hm).
           exists (m0 :: skipped), m, rest. repeat split; try assumption.
           constructor; [| exact Hsk]. exists r0. split; [exact Hm0 |].
           congruence.
        -- intros (skipped & m & rest & E & Hsk & Hm).
           destruct skipped as [| s skipped]; injection E as -> E.
           ++ congruence.
           ++ apply Forall_cons in Hsk as [_ Hsk].
              exists skipped, m, rest. auto.
    + split; [| reflexivity]. intros _. exists [], m0, inbound. auto.
Qed.

(** X23. The call stays suspended exactly as long as every message
    that has arrived is a well-formed response with another id; there
    is no bound on their number. *)
Theorem callContractAPI_suspended_iff (inbound : list MessageEvent) :
  snd (call inbound) = Suspended
  <-> Forall (foreign_reply JSON_parse requestID) inbound.
Proof.
  induction inbound as [| m0 inbound IH].
  - rewrite callContractAPI_nil. split; [constructor | reflexivity].
  - rewrite callContractAPI_cons.
    destruct (JSON_parse (data m0)) as [r0 |] eqn:Hm0.
    + destruct (String.eqb_spec requestID (id r0)) as [E0 | Hne0].
      * split; [discriminate |]. intros H.
        apply Forall_cons in H as [(r' & Hr' & Hne') _]. congruence.
      * rewrite IH. split.
        -- intros H. constructor; [| exact H].
           exists r0. split; [exact Hm0 | congruence].
        -- intros H. apply Forall_cons in H as [_ H]. exact H.
    + split; [discriminate |]. intros H.
      apply Forall_cons in H as [(r' & Hr' & _) _]. congruence.
Qed.

End CorrelatorOutcomes.
